(** * onnxruntime-web-tutorial: image-to-tensor pipeline and decoder

    A shallow embedding of the two revisions of [main.js] of the tutorial
    (the final script with the busy indicator, and the earlier script under
    [src/js/main.js] that logs size mismatches), together with the
    properties of the tensor builder, the arg-max decoder, the inference
    call and the status renderer.

    JavaScript numbers are IEEE-754 binary64 values, modelled with the
    executable specification [SpecFloat] of the standard library; a
    [Float32Array] slot holds the binary32 rounding of the number stored
    into it.  Arrays are lists, read with stdpp's lookup and written with
    stdpp's insert, which like a typed array ignores a write past the end. *)

From Stdlib Require Import ZArith Lia Ascii String.
From Stdlib Require Import Floats.SpecFloat.
From stdpp Require Import base list strings gmap pretty.

(** ** JavaScript numbers and values *)

Module JS.

(** A Number is a binary64 float: 53 bits of precision, exponent bound 1024. *)
Abbreviation number := spec_float.

Definition prec64 : Z := 53.
Definition emax64 : Z := 1024.
Definition prec32 : Z := 24.
Definition emax32 : Z := 128.

Definition NaN : number := S754_nan.

(** The Number denoted by an integer (exact below 2^53). *)
Definition of_Z (z : Z) : number := binary_normalize prec64 emax64 z 0 false.

(** [x / y] *)
Definition div (x y : number) : number := SFdiv prec64 emax64 x y.

(** [x > y], [x >= y], [x == y] on Numbers: false as soon as one side is NaN. *)
Definition gt (x y : number) : bool := SFltb y x.
Definition ge (x y : number) : bool := SFleb y x.
Definition eq (x y : number) : bool := SFeqb x y.
Definition le (x y : number) : bool := SFleb x y.

Definition is_nan (x : number) : bool :=
  match x with S754_nan => true | _ => false end.

(** [Math.fround]: round to binary32 (nearest, ties to even), and read the
    result back as a binary64 Number. *)
Definition fround (x : number) : number :=
  match x with
  | S754_finite s m e =>
      match binary_round prec32 emax32 s m e with
      | S754_finite s' m' e' => binary_round prec64 emax64 s' m' e'
      | y => y
      end
  | _ => x
  end.

(** A value that is either [undefined] ([None]) or a Number. *)
Abbreviation value := (option number).

(** ToNumber: [undefined] becomes NaN. *)
Definition to_number (v : value) : number := default NaN v.

(** The relational operator [a > b] on values (both sides go through
    ToNumber). *)
Definition value_gt (a b : value) : bool := gt (to_number a) (to_number b).

(** [a[i]] on an ordinary array of values: [undefined] out of range. *)
Definition array_get (a : list value) (i : nat) : value := a !! i ≫= id.

(** [a[i]] on a [Uint8ClampedArray]: the byte as a Number, [undefined]
    out of range. *)
Definition u8_get (a : list Z) (i : nat) : value := of_Z <$> a !! i.

(** [a[i]] on a [Float32Array]. *)
Definition f32_get (a : list number) (i : nat) : value := a !! i.

(** [new Float32Array(n)]: [n] slots holding [+0]. *)
Definition Float32Array (n : nat) : list number := replicate n (S754_zero false).

(** [a[i] = x] on a [Float32Array]: the slot receives [fround x]; a write
    at or past the length is dropped. *)
Definition f32_set (a : list number) (i : nat) (x : number) : list number :=
  <[i := fround x]> a.

(** Template-literal interpolation of a value that is a string or
    [undefined]. *)
Definition template (v : option string) : string := default "undefined" v.

(** [arr.filter((v, i) => p i)]: keeps the elements whose index passes. *)
Fixpoint filter_index {A} (p : nat → bool) (i : nat) (l : list A) : list A :=
  match l with
  | [] => []
  | v :: l' => if p i then v :: filter_index p (S i) l' else filter_index p (S i) l'
  end.

End JS.

(** ** The part of onnxruntime-web the scripts touch *)

Module ort.

(** [new ort.Tensor(type, data, dims)] keeps its three arguments. *)
Record Tensor : Type := mkTensor {
  type : string;
  data : list JS.number;
  dims : list nat
}.

(** What the scripts can see thrown: a rejection coming out of the
    engine, or the TypeError of reading a property off [undefined]. *)
Inductive error : Type :=
| EngineError (reason : string)
| TypeError (what : string).

(** The inference engine is a black box: [InferenceSession.create] either
    rejects or resolves to a session, and [session.run] either rejects or
    resolves to the named outputs. *)
Record InferenceSession : Type := mkSession {
  run : gmap string Tensor → error + gmap string Tensor
}.

Record Engine : Type := mkEngine {
  create : string → error + InferenceSession
}.

End ort.

(** ** Constants shared by both scripts *)

Definition WIDTH : nat := 224.
Definition DIMS : list nat := [1; 3; WIDTH; WIDTH].
Definition MAX_LENGTH : nat := DIMS !!! 0 * DIMS !!! 1 * DIMS !!! 2 * DIMS !!! 3.

(** Entries written by [console.error]. *)
Inductive console_entry : Type :=
| error_message (msg : string)
| error_object (e : ort.error).

(** The loop [for (let i = ...; i < data.length; i += 4)] that pushes the
    red, green and blue byte of each pixel on [R], [G] and [B].  [fuel]
    bounds the number of iterations; the scripts run it with
    [length data], which the loop never exhausts. *)
Fixpoint channel_loop (fuel : nat) (data : list Z) (i : nat)
    (R G B : list JS.value) : list JS.value * list JS.value * list JS.value :=
  match fuel with
  | O => (R, G, B)
  | S fuel' =>
      if decide (i < length data) then
        channel_loop fuel' data (i + 4)
          (R ++ [JS.u8_get data i])
          (G ++ [JS.u8_get data (i + 1)])
          (B ++ [JS.u8_get data (i + 2)])
      else (R, G, B)
  end.

(** The loop [for (i = 0; i < l; i++) out[i] = src[i] / d]. *)
Definition convert_loop (src : list JS.value) (d : JS.number)
    (out : list JS.number) (l : nat) : list JS.number :=
  foldl (λ out i, JS.f32_set out i (JS.div (JS.to_number (JS.array_get src i)) d))
        out (seq 0 l).

(** ** Effects: module-level variables, the console, and exceptions *)

(** A computation over the script's mutable state [S] that either returns
    or throws. *)
Definition eff (S A : Type) : Type := S → (ort.error + A) * S.

Section Eff.
Context {S : Type}.

Definition ret {A} (a : A) : eff S A := λ s, (inr a, s).

Definition bind {A B} (m : eff S A) (k : A → eff S B) : eff S B :=
  λ s, match m s with
       | (inl e, s') => (inl e, s')
       | (inr a, s') => k a s'
       end.

Definition throw {A} (e : ort.error) : eff S A := λ s, (inl e, s).

(** [try { body } catch (e) { handler }] *)
Definition try_catch {A} (body : eff S A) (handler : ort.error → eff S A) : eff S A :=
  λ s, match body s with
       | (inl e, s') => handler e s'
       | (inr a, s') => (inr a, s')
       end.

Definition modify (f : S → S) : eff S unit := λ s, (inr tt, f s).

Definition gets {A} (f : S → A) : eff S A := λ s, (inr (f s), s).

(** [await p]: resume with the value, or throw the rejection. *)
Definition await {A} (p : ort.error + A) : eff S A :=
  match p with
  | inl e => throw e
  | inr a => ret a
  end.

(** [obj.name] followed by a property read: a missing [name] yields
    [undefined], and reading a property off it throws. *)
Definition property_of {A} (obj : gmap string A) (name : string) : eff S A :=
  match obj !! name with
  | Some a => ret a
  | None => throw (ort.TypeError name)
  end.
End Eff.

Notation "'let*' x ':=' m 'in' k" := (bind m (λ x, k))
  (at level 10, x pattern, m at level 100, k at level 200).
Notation "m '>>' k" := (bind m (λ _, k))
  (at level 100, k at level 200, right associativity).

(** The double-quote character, for the HTML snippets. *)
Definition dq : string := String "034"%char EmptyString.

(** ** The final script (with the busy indicator) *)

Module Part001.

Definition MAX_SIGNED_VALUE : JS.number := JS.of_Z 255.

(** [let predictedClass; let isRunning = false;], the content of the
    [target] element, and what has been written on the console. *)
Record state : Type := mkState {
  predictedClass : option string;
  isRunning : bool;
  target_innerHTML : string;
  console : list console_entry
}.

(** The state once the script has been loaded; [html] is what the page
    has in the [target] element. *)
Definition initial (html : string) : state :=
  {| predictedClass := None; isRunning := false;
     target_innerHTML := html; console := [] |}.

Definition set_predictedClass (v : option string) (st : state) : state :=
  {| predictedClass := v; isRunning := isRunning st;
     target_innerHTML := target_innerHTML st; console := console st |}.

Definition set_isRunning (b : bool) (st : state) : state :=
  {| predictedClass := predictedClass st; isRunning := b;
     target_innerHTML := target_innerHTML st; console := console st |}.

Definition set_target_innerHTML (h : string) (st : state) : state :=
  {| predictedClass := predictedClass st; isRunning := isRunning st;
     target_innerHTML := h; console := console st |}.

Definition console_error (c : console_entry) (st : state) : state :=
  {| predictedClass := predictedClass st; isRunning := isRunning st;
     target_innerHTML := target_innerHTML st; console := console st ++ [c] |}.

(** The [onchange] handler of the file input: with a file selected the
    busy flag is raised (the read of the file is then left to the
    browser). *)
Definition onchange (has_file : bool) (st : state) : state :=
  if has_file then set_isRunning true st else st.

Definition loading_html : string :=
  "<div class=" +:+ dq +:+ "align-self-start" +:+ dq +:+ "><img src=" +:+ dq
    +:+ "src/images/loading.gif" +:+ dq +:+ " class=" +:+ dq +:+ "loading" +:+ dq +:+ "/>".

(** The callback given to [window.setInterval]. *)
Definition on_interval (st : state) : state :=
  if isRunning st then
    set_target_innerHTML loading_html st
  else if bool_decide (predictedClass st ≠ Some "undefined") then
    set_target_innerHTML ("<h3>I think it's a " +:+ JS.template (predictedClass st) +:+ "!") st
  else
    set_target_innerHTML "" st.

Definition imageDataToTensor (data : list Z) (dims : list nat) : ort.Tensor :=
  let '(R, G, B) := channel_loop (length data) data 0 [] [] [] in
  let transposedData := (R ++ G) ++ B in
  let l := length transposedData in
  let float32Data :=
    convert_loop transposedData MAX_SIGNED_VALUE (JS.Float32Array MAX_LENGTH) l in
  ort.mkTensor "float32" float32Data dims.

Definition argMax (arr : list JS.number) : JS.value * nat :=
  foldl (λ '(max, maxIndex) i,
           if JS.value_gt (JS.f32_get arr i) max
           then (JS.f32_get arr i, i)
           else (max, maxIndex))
        (JS.f32_get arr 0, 0)
        (seq 1 (length arr - 1)).

Section Run.
(** [imagenet_classes.json] and the engine are given from outside. *)
Variable classes : list string.
Variable engine : ort.Engine.

(** [async function run(inputTensor)].  The body touches the script's
    variables only after the last [await]. *)
Definition run (inputTensor : ort.Tensor) : eff state unit :=
  try_catch
    (let* session := await (ort.create engine "src/assets/model.onnx") in
     let feeds : gmap string ort.Tensor := {[ "input1" := inputTensor ]} in
     let* results := await (ort.run session feeds) in
     let* output1 := property_of results "output1" in
     let '(maxValue, maxIndex) := argMax (ort.data output1) in
     modify (set_predictedClass (Some (JS.template (classes !! maxIndex)))) >>
     modify (set_isRunning false))
    (λ e,
       modify (console_error (error_object e)) >>
       modify (set_isRunning false)).

(** [handleImage], from the pixels [processImage] read off the canvas. *)
Definition handleImage (resizedImageData : list Z) : eff state unit :=
  let inputTensor := imageDataToTensor resizedImageData DIMS in
  run inputTensor.
End Run.

End Part001.

(** ** The earlier script, src/js/main.js *)

Module MainJs.

(** [let imageData;], the content of the [target] element, and the
    console. *)
Record state : Type := mkState {
  imageData : option (list Z);
  target_innerHTML : string;
  console : list console_entry
}.

Definition initial (html : string) : state :=
  {| imageData := None; target_innerHTML := html; console := [] |}.

Definition set_imageData (d : list Z) (st : state) : state :=
  {| imageData := Some d; target_innerHTML := target_innerHTML st;
     console := console st |}.

Definition set_target_innerHTML (h : string) (st : state) : state :=
  {| imageData := imageData st; target_innerHTML := h; console := console st |}.

Definition console_error (c : console_entry) (st : state) : state :=
  {| imageData := imageData st; target_innerHTML := target_innerHTML st;
     console := console st ++ [c] |}.

(** Reading [imageData.length]: a TypeError while the variable is still
    [undefined]. *)
Definition read_imageData : eff state (list Z) :=
  λ st, match imageData st with
        | Some d => (inr d, st)
        | None => (inl (ort.TypeError "length"), st)
        end.

Definition mismatch_message (n : nat) : string :=
  "Mismatching data sizes: " +:+ pretty MAX_LENGTH +:+ " != " +:+ pretty n.

Definition imageDataToTensor (data : list Z) (dims : list nat) : eff state ort.Tensor :=
  let filteredData := JS.filter_index (λ i, negb (i mod 4 =? 3)) 0 data in
  (if bool_decide (MAX_LENGTH ≠ length filteredData)
   then modify (console_error (error_message (mismatch_message (length filteredData))))
   else ret tt) >>
  let* imageData := read_imageData in
  let '(R, G, B) := channel_loop (length imageData) imageData 0 [] [] [] in
  let processedData := (R ++ G) ++ B in
  let l := length processedData in
  let tensorData :=
    convert_loop processedData (JS.of_Z 255) (JS.Float32Array MAX_LENGTH) l in
  ret (ort.mkTensor "float32" tensorData dims).

Definition indexOfMax (arr : list JS.number) : nat * list nat :=
  let '(max, maxIndex, sorted) :=
    foldl (λ '(max, maxIndex, sorted) i,
             if JS.value_gt (JS.f32_get arr i) max
             then (JS.f32_get arr i, i, sorted ++ [i])
             else (max, maxIndex, sorted))
          (JS.f32_get arr 0, 0, [])
          (seq 1 (length arr - 1)) in
  (maxIndex, reverse sorted).

Section Run.
Variable classes : list string.
Variable engine : ort.Engine.

(** [async function run(inputTensor, dims)] *)
Definition run (inputTensor : ort.Tensor) (dims : list nat) : eff state unit :=
  try_catch
    (let* session := await (ort.create engine "src/assets/model.onnx") in
     let feeds : gmap string ort.Tensor := {[ "input1" := inputTensor ]} in
     let* results := await (ort.run session feeds) in
     let* output1 := property_of results "output1" in
     let '(maxIdx, sortedMaxIdx) := indexOfMax (ort.data output1) in
     modify (set_target_innerHTML (JS.template (classes !! maxIdx))))
    (λ e, modify (console_error (error_object e))).

(** [handleImageData], from the pixels [resizeImage] read off the canvas. *)
Definition handleImageData (resized : list Z) : eff state unit :=
  modify (set_imageData resized) >>
  let* inputTensor := imageDataToTensor resized DIMS in
  run inputTensor DIMS.
End Run.

End MainJs.

(** ** Specification vocabulary *)

(** What a slot of the tensor receives for the byte [v]: [v / 255.0]
    rounded into the [Float32Array]. *)
Definition normalize (v : Z) : JS.number :=
  JS.fround (JS.div (JS.of_Z v) (JS.of_Z 255)).

(** The same for an array element that may be [undefined]. *)
Definition normalize_value (v : JS.value) : JS.number :=
  JS.fround (JS.div (JS.to_number v) (JS.of_Z 255)).

(** The binary32 quotient [v / 255], computed directly in binary32. *)
Definition binary32_quotient (v : Z) : spec_float :=
  SFdiv JS.prec32 JS.emax32
    (binary_normalize JS.prec32 JS.emax32 v 0 false)
    (binary_normalize JS.prec32 JS.emax32 255 0 false).

(** The number of pixels the channel loop visits: one per started group of
    four bytes. *)
Definition pixels (data : list Z) : nat := (length data + 3) / 4.

(** Byte [c] of each of the [n] pixels that start at byte [i]. *)
Definition channel (data : list Z) (c i n : nat) : list JS.value :=
  (λ k, JS.u8_get data (i + 4 * k + c)) <$> seq 0 n.

(** The planar layout: all reds, then all greens, then all blues. *)
Definition planar (data : list Z) : list JS.value :=
  (channel data 0 0 (pixels data) ++ channel data 1 0 (pixels data))
    ++ channel data 2 0 (pixels data).

(** The buffer with the alpha bytes filtered out, as main.js computes it. *)
Definition alpha_removed (data : list Z) : list Z :=
  JS.filter_index (λ i, negb (i mod 4 =? 3)) 0 data.

(** The four bytes of the pixel in column [x] of row [y] of a row-major
    RGBA buffer that is [WIDTH] pixels wide. *)
Definition pixel_at (data : list Z) (x y : nat) : option (Z * Z * Z * Z) :=
  let o := 4 * (y * WIDTH + x) in
  r ← data !! o; g ← data !! (o + 1); b ← data !! (o + 2); a ← data !! (o + 3);
  Some (r, g, b, a).

(** A byte of the canvas. *)
Definition is_byte (v : Z) : Prop := (0 ≤ v ≤ 255)%Z.

(** A Number between 0.0 and 1.0, both included. *)
Definition in_unit_interval (v : JS.number) : Prop :=
  JS.le (JS.of_Z 0) v = true ∧ JS.le v (JS.of_Z 1) = true.

(** A [WIDTH] x [WIDTH] image whose pixels all are [(r, g, b, a)]. *)
Definition solid_image (r g b a : Z) : list Z :=
  concat (replicate (WIDTH * WIDTH) [r; g; b; a]).

(** The engine hands [arr] back as the data of [output1] for the input [t]. *)
Definition engine_outputs (engine : ort.Engine) (t : ort.Tensor)
    (arr : list JS.number) : Prop :=
  ∃ session results out,
    ort.create engine "src/assets/model.onnx" = inr session ∧
    ort.run session {[ "input1" := t ]} = inr results ∧
    results !! "output1" = Some out ∧
    ort.data out = arr.

(** The engine fails the request with [e]: the session does not load, or
    the run is rejected. *)
Definition engine_fails (engine : ort.Engine) (t : ort.Tensor)
    (e : ort.error) : Prop :=
  ort.create engine "src/assets/model.onnx" = inl e ∨
  ∃ session,
    ort.create engine "src/assets/model.onnx" = inr session ∧
    ort.run session {[ "input1" := t ]} = inl e.

(** Engines used to exercise the statements. *)
Definition engine_without_model : ort.Engine :=
  ort.mkEngine (λ _, inl (ort.EngineError "failed to load model")).

Definition engine_returning (arr : list JS.number) : ort.Engine :=
  ort.mkEngine (λ _, inr (ort.mkSession (λ _,
    inr {[ "output1" := ort.mkTensor "float32" arr [1; length arr] ]}))).

(** Decimal literals, as correctly rounded quotients. *)
Definition tenths (n : Z) : JS.number := JS.div (JS.of_Z n) (JS.of_Z 10).

(** The check made on each byte value: it is normalized into [0, 1], to
    the binary32 quotient of the byte by 255, which is not NaN. *)
Definition byte_ok (n : nat) : bool :=
  JS.le (JS.of_Z 0) (normalize (Z.of_nat n))
  && JS.le (normalize (Z.of_nat n)) (JS.of_Z 1)
  && JS.eq (normalize (Z.of_nat n)) (JS.fround (binary32_quotient (Z.of_nat n)))
  && negb (JS.is_nan (normalize (Z.of_nat n))).

(** What main.js leaves on the console for the buffer [data]. *)
Definition logged (data : list Z) (st : MainJs.state) : MainJs.state :=
  if bool_decide (MAX_LENGTH ≠ length (alpha_removed data))
  then MainJs.console_error
         (error_message (MainJs.mismatch_message (length (alpha_removed data)))) st
  else st.

(** One iteration of the loop of [argMax]. *)
Definition scan_step (arr : list JS.number) (acc : JS.value * nat) (i : nat)
    : JS.value * nat :=
  let '(max, maxIndex) := acc in
  if JS.value_gt (JS.f32_get arr i) max then (JS.f32_get arr i, i) else (max, maxIndex).

(** What holds once the indices [1 .. n] have been scanned. *)
Definition scanned (arr : list JS.number) (n : nat) (m : JS.number) (k : nat) : Prop :=
  k ≤ n ∧
  arr !! k = Some m ∧
  (∀ j x, j ≤ n → arr !! j = Some x → JS.gt x m = false) ∧
  (∀ j x, j < k → arr !! j = Some x → JS.ge x m = false).

(** The vector [0.1, 0.9, 0.9, 0.2]. *)
Definition tie_example : list JS.number := [tenths 1; tenths 9; tenths 9; tenths 2].

(** The result line of the page for the class name [c]. *)
Definition result_line (c : string) : string := "<h3>I think it's a " +:+ c +:+ "!".

(** The label [run] records for the output vector [arr]. *)
Definition label (classes : list string) (arr : list JS.number) : string :=
  JS.template (classes !! (Part001.argMax arr).2).

(** The element at index [b] is greater than the one at index [a]. *)
Definition above (arr : list JS.number) (b a : nat) : Prop :=
  ∃ x y, arr !! b = Some x ∧ arr !! a = Some y ∧ JS.gt x y = true.

(** One iteration of the loop of [indexOfMax]. *)
Definition record_step (arr : list JS.number) (acc : JS.value * nat * list nat)
    (i : nat) : JS.value * nat * list nat :=
  let '(max, maxIndex, sorted) := acc in
  if JS.value_gt (JS.f32_get arr i) max
  then (JS.f32_get arr i, i, sorted ++ [i])
  else (max, maxIndex, sorted).

(** What holds of the indices pushed on [sorted] once [1 .. n] have been
    scanned: the last one is the current arg-max, they lie in [1 .. n],
    each is above index 0, and a later one is above an earlier one. *)
Definition records (arr : list JS.number) (n : nat) (m : JS.number) (k : nat)
    (sorted : list nat) : Prop :=
  k = default 0 (last sorted) ∧
  arr !! k = Some m ∧
  (∀ a, a ∈ sorted → 1 ≤ a ≤ n ∧ above arr a 0) ∧
  (∀ i j a b, i < j → sorted !! i = Some a → sorted !! j = Some b →
              a < b ∧ above arr b a).

(** An engine whose run resolves without an [output1]. *)
Definition engine_without_output : ort.Engine :=
  ort.mkEngine (λ _, inr (ort.mkSession (λ _, inr ∅))).

(** The bytes outside the alpha positions. *)
Definition same_colours (d1 d2 : list Z) : Prop :=
  length d1 = length d2 ∧ ∀ i, i mod 4 ≠ 3 → d1 !! i = d2 !! i.

(** ** Numbers *)

Section Numbers.

Lemma MAX_LENGTH_eq : MAX_LENGTH = 3 * (WIDTH * WIDTH).
Proof.
  unfold MAX_LENGTH, DIMS.
  change ([1; 3; WIDTH; WIDTH] !!! 0) with 1.
  change ([1; 3; WIDTH; WIDTH] !!! 1) with 3.
  change ([1; 3; WIDTH; WIDTH] !!! 2) with WIDTH.
  change ([1; 3; WIDTH; WIDTH] !!! 3) with WIDTH.
  generalize WIDTH. intros w. lia.
Qed.

Local Ltac cmp_split :=
  repeat match goal with
  | H : context [Z.compare ?a ?b] |- _ => destruct (Z.compare_spec a b)
  | H : context [Pos.compare_cont Eq ?a ?b] |- _ =>
      change (Pos.compare_cont Eq a b) with (Pos.compare a b) in *;
      destruct (Pos.compare_spec a b)
  | |- context [Z.compare ?a ?b] => destruct (Z.compare_spec a b)
  | |- context [Pos.compare_cont Eq ?a ?b] =>
      change (Pos.compare_cont Eq a b) with (Pos.compare a b) in *;
      destruct (Pos.compare_spec a b)
  end.

Local Ltac float_cases :=
  repeat match goal with x : spec_float |- _ => destruct x end;
  repeat match goal with x : JS.number |- _ => destruct x end;
  simpl; try discriminate; try reflexivity;
  repeat match goal with s : bool |- _ => destruct s end;
  simpl; try discriminate; try reflexivity.

(** [m < x] and [x <= y] give [m < y]. *)
Lemma SFltb_leb_trans (m x y : spec_float) :
  SFltb m x = true → SFleb x y = true → SFltb m y = true.
Proof.
  unfold SFltb, SFleb. float_cases; intros H1 H2;
    cmp_split; simpl in *; try discriminate; try reflexivity; lia.
Qed.

Lemma SFltb_irrefl (x : spec_float) : SFltb x x = false.
Proof.
  unfold SFltb. destruct x as [s|s| |s m e]; simpl; try reflexivity;
    destruct s; try reflexivity;
    rewrite Z.compare_refl;
    change (Pos.compare_cont Eq m m) with (Pos.compare m m);
    rewrite Pos.compare_refl; reflexivity.
Qed.

Lemma SFltb_leb (x y : spec_float) : SFltb x y = true → SFleb x y = true.
Proof. unfold SFltb, SFleb. destruct (SFcompare x y) as [[]|]; done. Qed.

(** Away from NaN the comparison is total: not [x < y] means [y <= x]. *)
Lemma SFleb_total (x y : spec_float) :
  JS.is_nan x = false → JS.is_nan y = false →
  SFltb x y = false → SFleb y x = true.
Proof.
  unfold SFltb, SFleb. float_cases; intros _ _;
    cmp_split; simpl in *; try discriminate; try reflexivity; lia.
Qed.

Lemma SFltb_total (x y : spec_float) :
  JS.is_nan x = false → JS.is_nan y = false →
  SFleb x y = false → SFltb y x = true.
Proof.
  unfold SFltb, SFleb. float_cases; intros _ _;
    cmp_split; simpl in *; try discriminate; try reflexivity; lia.
Qed.

Lemma gt_irrefl x : JS.gt x x = false.
Proof. apply SFltb_irrefl. Qed.

(** [y >= x] and [x > m] give [y > m]. *)
Lemma ge_gt_trans m x y :
  JS.ge y x = true → JS.gt x m = true → JS.gt y m = true.
Proof. unfold JS.ge, JS.gt. intros H1 H2. by eapply SFltb_leb_trans. Qed.

Lemma gt_trans m x y :
  JS.gt y x = true → JS.gt x m = true → JS.gt y m = true.
Proof.
  intros H1 H2. eapply ge_gt_trans; [|done]. by apply SFltb_leb.
Qed.

Lemma gt_not_nan x y : JS.gt x y = true → JS.is_nan x = false ∧ JS.is_nan y = false.
Proof. unfold JS.gt, SFltb. by destruct x, y. Qed.

Lemma all_bytes_ok : forallb byte_ok (seq 0 256) = true.
Proof. vm_compute. reflexivity. Qed.

Lemma byte_ok_range (v : Z) : (0 ≤ v ≤ 255)%Z → byte_ok (Z.to_nat v) = true.
Proof.
  intros Hv. pose proof all_bytes_ok as H.
  rewrite forallb_forall in H. apply H, in_seq. lia.
Qed.

Lemma normalize_range (v : Z) :
  (0 ≤ v ≤ 255)%Z →
  JS.le (JS.of_Z 0) (normalize v) = true ∧ JS.le (normalize v) (JS.of_Z 1) = true.
Proof.
  intros Hv. pose proof (byte_ok_range v Hv) as H. unfold byte_ok in H.
  rewrite Z2Nat.id in H by lia.
  apply andb_prop in H as [H _]. apply andb_prop in H as [H _].
  by apply andb_prop in H.
Qed.

Lemma normalize_is_binary32_quotient (v : Z) :
  (0 ≤ v ≤ 255)%Z →
  JS.eq (normalize v) (JS.fround (binary32_quotient v)) = true.
Proof.
  intros Hv. pose proof (byte_ok_range v Hv) as H. unfold byte_ok in H.
  rewrite Z2Nat.id in H by lia.
  apply andb_prop in H as [H _]. by apply andb_prop in H as [_ H].
Qed.

Lemma normalize_255 : normalize 255 = JS.of_Z 1.
Proof. vm_compute. reflexivity. Qed.

Lemma normalize_0 : normalize 0 = S754_zero false.
Proof. vm_compute. reflexivity. Qed.

Lemma normalize_undefined : normalize_value None = JS.NaN.
Proof. reflexivity. Qed.

Lemma normalize_value_byte (v : Z) : normalize_value (Some (JS.of_Z v)) = normalize v.
Proof. reflexivity. Qed.

End Numbers.

(** ** The two loops of the tensor builder *)

Section Loops.

Lemma channel_S data c i n :
  channel data c i (S n) = JS.u8_get data (i + c) :: channel data c (i + 4) n.
Proof.
  unfold channel. cbn [seq fmap list_fmap]. f_equal.
  - f_equal. lia.
  - rewrite <- fmap_S_seq, <- list_fmap_compose. apply list_fmap_ext.
    intros _ k _. cbn. f_equal. lia.
Qed.

Lemma length_channel data c i n : length (channel data c i n) = n.
Proof. unfold channel. by rewrite length_fmap, length_seq. Qed.

Lemma lookup_channel data c i n k :
  k < n → channel data c i n !! k = Some (JS.u8_get data (i + 4 * k + c)).
Proof.
  intros Hk. unfold channel. by rewrite list_lookup_fmap, lookup_seq_lt.
Qed.

(** After [n] iterations, where [n] is the number of pixels left from
    byte [i] on, the loop has pushed one value per pixel and channel. *)
Lemma channel_loop_spec n : ∀ fuel data i R G B,
  n ≤ fuel →
  length data ≤ i + 4 * n →
  (∀ k, k < n → i + 4 * k < length data) →
  channel_loop fuel data i R G B =
    (R ++ channel data 0 i n, G ++ channel data 1 i n, B ++ channel data 2 i n).
Proof.
  induction n as [|n IH]; intros fuel data i R G B Hfuel Hlen Hin.
  - unfold channel; cbn [seq fmap list_fmap]. rewrite !app_nil_r.
    destruct fuel as [|fuel]; cbn [channel_loop]; [done|].
    destruct (decide _); [lia|done].
  - destruct fuel as [|fuel]; [lia|]. cbn [channel_loop].
    pose proof (Hin 0 ltac:(lia)) as H0.
    destruct (decide _); [|lia].
    rewrite (IH fuel data (i + 4)); [| lia | lia |].
    + rewrite !channel_S, <- !app_assoc. cbn [app].
      replace (i + 0) with i by lia. done.
    + intros k Hk. specialize (Hin (S k) ltac:(lia)). lia.
Qed.

Lemma pixels_bounds data :
  pixels data ≤ length data ∧
  length data ≤ 4 * pixels data ∧
  ∀ k, k < pixels data → 4 * k < length data.
Proof.
  unfold pixels.
  pose proof (Nat.div_mod_eq (length data + 3) 4) as Hd.
  pose proof (Nat.mod_upper_bound (length data + 3) 4 ltac:(lia)) as Hm.
  repeat split; intros; lia.
Qed.

Lemma pixels_sized data n : length data = 4 * n → pixels data = n.
Proof.
  intros Hn. unfold pixels.
  pose proof (Nat.div_mod_eq (length data + 3) 4) as Hd.
  pose proof (Nat.mod_upper_bound (length data + 3) 4 ltac:(lia)) as Hm.
  lia.
Qed.

(** The loop ends on its own condition: any fuel from the number of
    pixels on gives the same three lists. *)
Lemma channel_loop_run data fuel :
  pixels data ≤ fuel →
  channel_loop fuel data 0 [] [] [] =
    (channel data 0 0 (pixels data), channel data 1 0 (pixels data),
     channel data 2 0 (pixels data)).
Proof.
  intros Hfuel. destruct (pixels_bounds data) as (_ & H2 & H3).
  rewrite (channel_loop_spec (pixels data)); [done | done | lia |].
  intros k Hk. specialize (H3 k Hk). lia.
Qed.

Lemma channel_loop_fuel data fuel :
  length data ≤ fuel →
  channel_loop fuel data 0 [] [] [] = channel_loop (length data) data 0 [] [] [].
Proof.
  intros Hfuel. destruct (pixels_bounds data) as (H1 & _ & _).
  rewrite !channel_loop_run; [done | lia | lia].
Qed.

Lemma length_planar data : length (planar data) = 3 * pixels data.
Proof. unfold planar. rewrite !length_app, !length_channel. lia. Qed.

(** Channel [c], pixel [k] sits at index [c * pixels + k] of the planar
    list and is byte [4 * k + c] of the buffer. *)
Lemma lookup_planar data c k :
  c < 3 → k < pixels data →
  planar data !! (c * pixels data + k) = Some (JS.u8_get data (4 * k + c)).
Proof.
  intros Hc Hk. unfold planar.
  assert (c = 0 ∨ c = 1 ∨ c = 2) as [-> | [-> | ->]] by lia.
  - rewrite <- app_assoc, lookup_app_l by (rewrite length_channel; lia).
    replace (0 * pixels data + k) with k by lia.
    by rewrite lookup_channel.
  - rewrite lookup_app_l by (rewrite length_app, !length_channel; lia).
    rewrite lookup_app_r by (rewrite length_channel; lia).
    rewrite length_channel.
    replace (1 * pixels data + k - pixels data) with k by lia.
    by rewrite lookup_channel.
  - rewrite lookup_app_r by (rewrite length_app, !length_channel; lia).
    rewrite length_app, !length_channel.
    replace (2 * pixels data + k - (pixels data + pixels data)) with k by lia.
    by rewrite lookup_channel.
Qed.

Lemma length_convert_loop src d out l :
  length (convert_loop src d out l) = length out.
Proof.
  unfold convert_loop. revert out.
  induction (seq 0 l) as [|i rest IH]; intros out; cbn [foldl]; [done|].
  rewrite IH. unfold JS.f32_set. by rewrite length_insert.
Qed.

(** Slot [j] after the conversion loop: written when [j] is below both
    the loop bound and the length of the typed array, untouched
    otherwise. *)
Lemma lookup_convert_loop src d l : ∀ out j,
  convert_loop src d out l !! j =
    if decide (j < l ∧ j < length out)
    then Some (JS.fround (JS.div (JS.to_number (JS.array_get src j)) d))
    else out !! j.
Proof.
  induction l as [|l IH]; intros out j.
  - destruct (decide _) as [[? ?]|_]; [lia|done].
  - unfold convert_loop. rewrite seq_S, foldl_app.
    change (foldl _ out (seq 0 l)) with (convert_loop src d out l).
    cbn [foldl Nat.add]. unfold JS.f32_set.
    destruct (decide (j = l)) as [->|Hne].
    + destruct (decide (l < length out)) as [Hl|Hl].
      * rewrite list_lookup_insert_eq by (by rewrite length_convert_loop).
        destruct (decide _) as [_|?]; [done|lia].
      * rewrite list_insert_ge by (rewrite length_convert_loop; lia).
        rewrite IH. destruct (decide _), (decide _); try lia; done.
    + rewrite list_lookup_insert_ne by done. rewrite IH.
      destruct (decide _), (decide _); try lia; done.
Qed.

(** The data of the tensor, in terms of the planar list. *)
Lemma builder_data data dims :
  ort.data (Part001.imageDataToTensor data dims) =
    convert_loop (planar data) (JS.of_Z 255) (JS.Float32Array MAX_LENGTH)
      (length (planar data)).
Proof.
  unfold Part001.imageDataToTensor.
  rewrite channel_loop_run by apply pixels_bounds. reflexivity.
Qed.

Lemma length_builder data dims :
  length (ort.data (Part001.imageDataToTensor data dims)) = MAX_LENGTH.
Proof.
  rewrite builder_data, length_convert_loop. apply length_replicate.
Qed.

Lemma lookup_builder data dims j :
  ort.data (Part001.imageDataToTensor data dims) !! j =
    if decide (j < MAX_LENGTH) then
      Some (if decide (j < 3 * pixels data)
            then normalize_value (JS.array_get (planar data) j)
            else S754_zero false)
    else None.
Proof.
  rewrite builder_data, lookup_convert_loop, length_planar.
  unfold JS.Float32Array. rewrite length_replicate.
  destruct (decide (j < MAX_LENGTH)) as [Hj|Hj].
  - destruct (decide (j < 3 * pixels data)).
    + destruct (decide _) as [_|?]; [done|lia].
    + destruct (decide _) as [[? ?]|_]; [lia|].
      by rewrite lookup_replicate_2.
  - destruct (decide _) as [[? ?]|_]; [lia|].
    apply lookup_replicate_None. lia.
Qed.

End Loops.

(** ** main.js against the final script *)

Section MainJs_builder.

Lemma mod4 q r : r < 4 → (4 * q + r) mod 4 = r.
Proof.
  intros Hr.
  pose proof (Nat.div_mod_eq (4 * q + r) 4) as Hd.
  pose proof (Nat.mod_upper_bound (4 * q + r) 4 ltac:(lia)) as Hm.
  lia.
Qed.

Lemma filter_index_quad {A} q (a b c d : A) l :
  JS.filter_index (λ i, negb (i mod 4 =? 3)) (4 * q) (a :: b :: c :: d :: l) =
    a :: b :: c :: JS.filter_index (λ i, negb (i mod 4 =? 3)) (4 * S q) l.
Proof.
  cbn [JS.filter_index].
  replace (4 * q) with (4 * q + 0) at 1 by lia.
  replace (S (4 * q)) with (4 * q + 1) by lia.
  replace (S (4 * q + 1)) with (4 * q + 2) by lia.
  replace (S (4 * q + 2)) with (4 * q + 3) by lia.
  rewrite !mod4 by lia. cbn [Nat.eqb negb].
  replace (S (4 * q + 3)) with (4 * S q) by lia. done.
Qed.

(** Filtering the alpha bytes out of [n] whole pixels leaves [3 * n]
    bytes. *)
Lemma length_filter_index_sized n : ∀ q (l : list Z),
  length l = 4 * n →
  length (JS.filter_index (λ i, negb (i mod 4 =? 3)) (4 * q) l) = 3 * n.
Proof.
  induction n as [|n IH]; intros q l Hl.
  - destruct l; [done | cbn in Hl; lia].
  - destruct l as [|a [|b [|c [|d l]]]]; cbn [length] in Hl; try lia.
    rewrite filter_index_quad. cbn [length]. rewrite IH by lia. lia.
Qed.

Lemma length_alpha_removed_sized data n :
  length data = 4 * n → length (alpha_removed data) = 3 * n.
Proof.
  intros Hl. unfold alpha_removed.
  change 0 with (4 * 0). by apply length_filter_index_sized.
Qed.

(** With [imageData] holding the buffer [buf], main.js builds the tensor
    of the final script for [buf], after its size check of [data]. *)
Lemma MainJs_imageDataToTensor_eq data buf dims st :
  MainJs.imageData st = Some buf →
  MainJs.imageDataToTensor data dims st =
    (inr (Part001.imageDataToTensor buf dims), logged data st).
Proof.
  intros Hbuf.
  assert (MainJs.imageData (logged data st) = Some buf) as Hbuf'.
  { unfold logged. by destruct (bool_decide _). }
  unfold MainJs.imageDataToTensor, bind.
  fold (alpha_removed data).
  assert ((if bool_decide (MAX_LENGTH ≠ length (alpha_removed data))
           then modify (MainJs.console_error
                  (error_message (MainJs.mismatch_message (length (alpha_removed data)))))
           else ret ()) st = (inr (), logged data st)) as ->.
  { unfold logged. by destruct (bool_decide _). }
  unfold MainJs.read_imageData. rewrite Hbuf'.
  unfold Part001.imageDataToTensor.
  destruct (channel_loop (length buf) buf 0 [] [] []) as [[R G] B].
  reflexivity.
Qed.

(** While [imageData] is still [undefined], main.js throws. *)
Lemma MainJs_imageDataToTensor_undefined data dims st :
  MainJs.imageData st = None →
  MainJs.imageDataToTensor data dims st =
    (inl (ort.TypeError "length"), logged data st).
Proof.
  intros Hbuf.
  assert (MainJs.imageData (logged data st) = None) as Hbuf'.
  { unfold logged. by destruct (bool_decide _). }
  unfold MainJs.imageDataToTensor, bind.
  fold (alpha_removed data).
  assert ((if bool_decide (MAX_LENGTH ≠ length (alpha_removed data))
           then modify (MainJs.console_error
                  (error_message (MainJs.mismatch_message (length (alpha_removed data)))))
           else ret ()) st = (inr (), logged data st)) as ->.
  { unfold logged. by destruct (bool_decide _). }
  unfold MainJs.read_imageData. by rewrite Hbuf'.
Qed.

Lemma logged_sized data st :
  length data = 4 * (WIDTH * WIDTH) → logged data st = st.
Proof.
  intros Hl. unfold logged.
  rewrite (length_alpha_removed_sized data (WIDTH * WIDTH) Hl), MAX_LENGTH_eq.
  generalize (3 * (WIDTH * WIDTH)). intros m.
  destruct (bool_decide_reflect (m ≠ m)) as [Hne|_]; [|reflexivity].
  exfalso. apply Hne. reflexivity.
Qed.

(** On a whole image main.js logs nothing and returns the tensor of the
    final script. *)
Lemma MainJs_imageDataToTensor_sized data dims st :
  length data = 4 * (WIDTH * WIDTH) →
  MainJs.imageDataToTensor data dims (MainJs.set_imageData data st) =
    (inr (Part001.imageDataToTensor data dims), MainJs.set_imageData data st).
Proof.
  intros Hlen.
  rewrite (MainJs_imageDataToTensor_eq data data dims) by reflexivity.
  rewrite (logged_sized _ _ Hlen). reflexivity.
Qed.

End MainJs_builder.

(** ** The tensor builder on whole images *)

Section Builder.

(** Channel [c] of pixel [k] of an [n]-pixel buffer lands in slot
    [c * n + k], normalized. *)
Lemma lookup_builder_pixel data dims n c k v :
  length data = 4 * n → MAX_LENGTH = 3 * n → c < 3 → k < n →
  data !! (4 * k + c) = Some v →
  ort.data (Part001.imageDataToTensor data dims) !! (c * n + k) = Some (normalize v).
Proof.
  intros Hlen Hmax Hc Hk Hv.
  pose proof (pixels_sized data n Hlen) as Hpx.
  pose proof (lookup_planar data c k Hc) as Hpl. rewrite Hpx in Hpl.
  rewrite lookup_builder, Hpx, Hmax.
  assert (c * n + k < 3 * n) as Hj.
  { assert (c = 0 ∨ c = 1 ∨ c = 2) as [-> | [-> | ->]] by lia; lia. }
  destruct (decide (c * n + k < 3 * n)); [|lia].
  unfold JS.array_get. rewrite Hpl by done.
  unfold JS.u8_get. rewrite Hv. reflexivity.
Qed.

(** Every slot of a well-sized image comes from a byte of the buffer. *)
Lemma lookup_builder_inv data dims n j x :
  length data = 4 * n → MAX_LENGTH = 3 * n →
  ort.data (Part001.imageDataToTensor data dims) !! j = Some x →
  ∃ i v, data !! i = Some v ∧ x = normalize v.
Proof.
  intros Hlen Hmax Hx.
  assert (j < 3 * n) as Hj.
  { apply lookup_lt_Some in Hx. rewrite length_builder in Hx. lia. }
  assert (∃ c k, c < 3 ∧ k < n ∧ j = c * n + k) as (c & k & Hc & Hk & ->).
  { destruct (decide (j < n)); [exists 0, j; lia|].
    destruct (decide (j < 2 * n)); [exists 1, (j - n); lia|].
    exists 2, (j - 2 * n); lia. }
  destruct (lookup_lt_is_Some_2 data (4 * k + c) ltac:(lia)) as [v Hv].
  rewrite (lookup_builder_pixel data dims n c k v) in Hx by done.
  exists (4 * k + c), v. split; [done|congruence].
Qed.

Lemma length_solid n (r g b a : Z) : length (concat (replicate n [r; g; b; a])) = 4 * n.
Proof.
  induction n as [|n IH]; [done|].
  cbn [replicate concat]. rewrite length_app, IH. cbn [length]. lia.
Qed.

Lemma lookup_solid n (r g b a : Z) : ∀ k c,
  k < n → c < 4 →
  concat (replicate n [r; g; b; a]) !! (4 * k + c) = [r; g; b; a] !! c.
Proof.
  induction n as [|n IH]; intros k c Hk Hc; [lia|].
  cbn [replicate concat]. destruct k as [|k].
  - rewrite lookup_app_l by (cbn [length]; lia).
    f_equal.
  - rewrite lookup_app_r by (cbn [length]; lia). cbn [length].
    replace (4 * S k + c - 4) with (4 * k + c) by lia.
    apply IH; lia.
Qed.

(** [n] red pixels give [n] ones followed by [2 * n] zeros. *)
Lemma builder_solid_red n dims :
  MAX_LENGTH = 3 * n →
  ort.data (Part001.imageDataToTensor (concat (replicate n [255; 0; 0; 255]%Z)) dims) =
    replicate n (JS.of_Z 1) ++ replicate n (JS.of_Z 0) ++ replicate n (JS.of_Z 0).
Proof.
  intros Hmax.
  pose proof (length_solid n 255 0 0 255) as Hlen.
  pose proof (lookup_solid n 255 0 0 255) as Hsolid.
  revert Hlen Hsolid. generalize (concat (replicate n [255; 0; 0; 255]%Z)).
  intros data Hlen Hsolid.
  pose proof (length_builder data dims) as Hlb.
  pose proof (lookup_builder_pixel data dims n) as Hpx.
  revert Hlb Hpx. generalize (ort.data (Part001.imageDataToTensor data dims)).
  intros out Hlb Hpx.
  apply list_eq. intros j.
  destruct (decide (j < n)) as [H1|H1].
  { rewrite lookup_app_l by (rewrite length_replicate; lia).
    rewrite lookup_replicate_2 by lia.
    replace j with (0 * n + j) at 1 by lia.
    rewrite (Hpx 0 j 255%Z Hlen Hmax ltac:(lia) H1).
    - by rewrite normalize_255.
    - by rewrite Hsolid by lia. }
  rewrite lookup_app_r by (rewrite length_replicate; lia).
  rewrite length_replicate.
  destruct (decide (j < 2 * n)) as [H2|H2].
  { rewrite lookup_app_l by (rewrite length_replicate; lia).
    rewrite lookup_replicate_2 by lia.
    replace j with (1 * n + (j - n)) at 1 by lia.
    rewrite (Hpx 1 (j - n) 0%Z Hlen Hmax ltac:(lia) ltac:(lia)).
    - by rewrite normalize_0.
    - by rewrite Hsolid by lia. }
  rewrite lookup_app_r by (rewrite length_replicate; lia).
  rewrite length_replicate.
  destruct (decide (j < 3 * n)) as [H3|H3].
  { rewrite lookup_replicate_2 by lia.
    replace j with (2 * n + (j - 2 * n)) at 1 by lia.
    rewrite (Hpx 2 (j - 2 * n) 0%Z Hlen Hmax ltac:(lia) ltac:(lia)).
    - by rewrite normalize_0.
    - by rewrite Hsolid by lia. }
  rewrite lookup_ge_None_2 by lia.
  symmetry. apply lookup_replicate_None. lia.
Qed.

Lemma length_solid_image r g b a :
  length (solid_image r g b a) = WIDTH * WIDTH * 4.
Proof. unfold solid_image. rewrite length_solid. lia. Qed.

Lemma solid_image_bytes r g b a :
  is_byte r → is_byte g → is_byte b → is_byte a →
  Forall is_byte (solid_image r g b a).
Proof.
  intros Hr Hg Hb Ha. unfold solid_image. apply Forall_concat, Forall_replicate.
  do 4 (constructor; [assumption|]). constructor.
Qed.

Lemma pixel_index x y : x < WIDTH → y < WIDTH → y * WIDTH + x < WIDTH * WIDTH.
Proof. generalize WIDTH. intros w Hx Hy. nia. Qed.

Lemma pixel_at_Some data x y r g b a :
  pixel_at data x y = Some (r, g, b, a) →
  data !! (4 * (y * WIDTH + x) + 0) = Some r ∧
  data !! (4 * (y * WIDTH + x) + 1) = Some g ∧
  data !! (4 * (y * WIDTH + x) + 2) = Some b ∧
  data !! (4 * (y * WIDTH + x) + 3) = Some a.
Proof.
  unfold pixel_at. generalize (4 * (y * WIDTH + x)). intros o.
  replace (o + 0) with o by lia.
  destruct (data !! o) as [r'|]; [|done].
  destruct (data !! (o + 1)) as [g'|]; [|done].
  destruct (data !! (o + 2)) as [b'|]; [|done].
  destruct (data !! (o + 3)) as [a'|]; [|done].
  cbn. intros [= -> -> -> ->]. done.
Qed.

End Builder.

(** ** Properties of the tensor builder *)

(** C1. For a buffer of [WIDTH * WIDTH * 4] bytes whose pixel at column [x]
    of row [y] is [(r, g, b, a)], the tensor built by [imageDataToTensor]
    holds [r / 255.0] at index [0*W*W + y*W + x], [g / 255.0] at
    [1*W*W + y*W + x] and [b / 255.0] at [2*W*W + y*W + x], each as stored
    in the [Float32Array]: the alpha byte is dropped and the layout goes
    from pixel-major to channel-major.  main.js, called as
    [handleImageData] calls it, returns the same tensor. *)
Theorem imageDataToTensor_channel_major
    (data : list Z) (dims : list nat) (x y : nat) (r g b a : Z) (st : MainJs.state) :
  length data = WIDTH * WIDTH * 4 →
  x < WIDTH → y < WIDTH →
  pixel_at data x y = Some (r, g, b, a) →
  let t := Part001.imageDataToTensor data dims in
  ort.data t !! (0 * WIDTH * WIDTH + y * WIDTH + x) = Some (normalize r) ∧
  ort.data t !! (1 * WIDTH * WIDTH + y * WIDTH + x) = Some (normalize g) ∧
  ort.data t !! (2 * WIDTH * WIDTH + y * WIDTH + x) = Some (normalize b) ∧
  MainJs.imageDataToTensor data dims (MainJs.set_imageData data st) =
    (inr t, MainJs.set_imageData data st).
Proof.
  intros Hlen Hx Hy Hpx t. subst t.
  destruct (pixel_at_Some _ _ _ _ _ _ _ Hpx) as (Hr & Hg & Hb & _).
  pose proof (pixel_index x y Hx Hy) as Hk.
  pose proof MAX_LENGTH_eq as Hmax.
  assert (length data = 4 * (WIDTH * WIDTH)) as Hlen' by lia.
  replace (0 * WIDTH * WIDTH + y * WIDTH + x)
    with (0 * (WIDTH * WIDTH) + (y * WIDTH + x)) by lia.
  replace (1 * WIDTH * WIDTH + y * WIDTH + x)
    with (1 * (WIDTH * WIDTH) + (y * WIDTH + x)) by lia.
  replace (2 * WIDTH * WIDTH + y * WIDTH + x)
    with (2 * (WIDTH * WIDTH) + (y * WIDTH + x)) by lia.
  split; [|split; [|split]].
  - exact (lookup_builder_pixel data dims (WIDTH * WIDTH) 0 (y * WIDTH + x) r
             Hlen' Hmax ltac:(lia) Hk Hr).
  - exact (lookup_builder_pixel data dims (WIDTH * WIDTH) 1 (y * WIDTH + x) g
             Hlen' Hmax ltac:(lia) Hk Hg).
  - exact (lookup_builder_pixel data dims (WIDTH * WIDTH) 2 (y * WIDTH + x) b
             Hlen' Hmax ltac:(lia) Hk Hb).
  - rewrite (MainJs_imageDataToTensor_eq data data dims) by reflexivity.
    rewrite (logged_sized _ _ Hlen'). reflexivity.
Qed.

Lemma imageDataToTensor_channel_major_witness :
  let data := solid_image 10 20 30 40 in
  let t := Part001.imageDataToTensor data DIMS in
  ort.data t !! (0 * WIDTH * WIDTH + 2 * WIDTH + 3) = Some (normalize 10) ∧
  ort.data t !! (1 * WIDTH * WIDTH + 2 * WIDTH + 3) = Some (normalize 20) ∧
  ort.data t !! (2 * WIDTH * WIDTH + 2 * WIDTH + 3) = Some (normalize 30) ∧
  MainJs.imageDataToTensor data DIMS (MainJs.set_imageData data (MainJs.initial "")) =
    (inr t, MainJs.set_imageData data (MainJs.initial "")).
Proof.
  apply (imageDataToTensor_channel_major (solid_image 10 20 30 40) DIMS 3 2
           10 20 30 40 (MainJs.initial "")).
  - apply length_solid_image.
  - unfold WIDTH. lia.
  - unfold WIDTH. lia.
  - vm_compute. reflexivity.
Defined.

(** C4. For a buffer of [WIDTH * WIDTH * 4] bytes, each in [0, 255], the
    tensor has exactly [3 * WIDTH * WIDTH] values and each of them lies
    between 0.0 and 1.0, both included. *)
Theorem imageDataToTensor_length_and_range
    (data : list Z) (dims : list nat) (st : MainJs.state) :
  length data = WIDTH * WIDTH * 4 →
  Forall is_byte data →
  let t := Part001.imageDataToTensor data dims in
  length (ort.data t) = 3 * WIDTH * WIDTH ∧
  Forall in_unit_interval (ort.data t) ∧
  MainJs.imageDataToTensor data dims (MainJs.set_imageData data st) =
    (inr t, MainJs.set_imageData data st).
Proof.
  intros Hlen Hbytes t. subst t.
  pose proof MAX_LENGTH_eq as Hmax.
  assert (length data = 4 * (WIDTH * WIDTH)) as Hlen' by lia.
  split; [|split].
  - rewrite length_builder. lia.
  - apply Forall_lookup. intros j v Hv.
    destruct (lookup_builder_inv data dims (WIDTH * WIDTH) j v Hlen' Hmax Hv)
      as (i & z & Hz & ->).
    apply normalize_range. exact (Forall_lookup_1 is_byte data i z Hbytes Hz).
  - rewrite (MainJs_imageDataToTensor_eq data data dims) by reflexivity.
    rewrite (logged_sized _ _ Hlen'). reflexivity.
Qed.

Lemma imageDataToTensor_length_and_range_witness :
  let data := solid_image 255 0 0 255 in
  let t := Part001.imageDataToTensor data DIMS in
  length (ort.data t) = 3 * WIDTH * WIDTH ∧
  Forall in_unit_interval (ort.data t) ∧
  MainJs.imageDataToTensor data DIMS (MainJs.set_imageData data (MainJs.initial "")) =
    (inr t, MainJs.set_imageData data (MainJs.initial "")).
Proof.
  apply (imageDataToTensor_length_and_range (solid_image 255 0 0 255) DIMS
           (MainJs.initial "")).
  - apply length_solid_image.
  - apply solid_image_bytes; unfold is_byte; lia.
Defined.

(** C6. For the solid red image (every pixel [(255, 0, 0, 255)]) the first
    [WIDTH * WIDTH] values of the tensor are all 1.0, the next
    [WIDTH * WIDTH] all 0.0 and the last [WIDTH * WIDTH] all 0.0. *)
Theorem imageDataToTensor_solid_red (dims : list nat) (st : MainJs.state) :
  let red := solid_image 255 0 0 255 in
  let t := Part001.imageDataToTensor red dims in
  ort.data t =
    replicate (WIDTH * WIDTH) (JS.of_Z 1) ++
    replicate (WIDTH * WIDTH) (JS.of_Z 0) ++
    replicate (WIDTH * WIDTH) (JS.of_Z 0) ∧
  MainJs.imageDataToTensor red dims (MainJs.set_imageData red st) =
    (inr t, MainJs.set_imageData red st).
Proof.
  intros red t. subst red t.
  assert (length (solid_image 255 0 0 255) = 4 * (WIDTH * WIDTH)) as Hlen.
  { rewrite length_solid_image. lia. }
  split.
  - unfold solid_image. exact (builder_solid_red (WIDTH * WIDTH) dims MAX_LENGTH_eq).
  - exact (MainJs_imageDataToTensor_sized _ dims st Hlen).
Qed.

(** C8. For a buffer of any length the typed array behind the tensor has
    exactly [3 * 224 * 224] slots.  The slots below the number of channel
    values the buffer yields hold those values, normalized; the slots from
    there on are still the [+0] the array was allocated with; a channel
    value whose index is [3 * 224 * 224] or more is written nowhere, and
    the function returns all the same.  main.js, called as
    [handleImageData] calls it, returns the same tensor. *)
Theorem imageDataToTensor_any_length
    (data : list Z) (dims : list nat) (st : MainJs.state) :
  let t := Part001.imageDataToTensor data dims in
  MAX_LENGTH = 3 * 224 * 224 ∧
  length (ort.data t) = MAX_LENGTH ∧
  length (planar data) = 3 * pixels data ∧
  (∀ j, j < length (planar data) → j < MAX_LENGTH →
        ort.data t !! j = Some (normalize_value (JS.array_get (planar data) j))) ∧
  (∀ j, length (planar data) ≤ j → j < MAX_LENGTH →
        ort.data t !! j = Some (S754_zero false)) ∧
  (∀ j, MAX_LENGTH ≤ j → ort.data t !! j = None) ∧
  (∃ st', MainJs.imageDataToTensor data dims (MainJs.set_imageData data st) =
            (inr t, st')).
Proof.
  intros t. subst t.
  split; [rewrite MAX_LENGTH_eq; unfold WIDTH; lia|].
  split; [apply length_builder|].
  split; [apply length_planar|].
  rewrite length_planar.
  split; [|split; [|split]].
  - intros j Hj HM. rewrite lookup_builder.
    destruct (decide (j < MAX_LENGTH)); [|lia].
    destruct (decide (j < 3 * pixels data)); [done|lia].
  - intros j Hj HM. rewrite lookup_builder.
    destruct (decide (j < MAX_LENGTH)); [|lia].
    destruct (decide (j < 3 * pixels data)); [lia|done].
  - intros j Hj. rewrite lookup_builder.
    destruct (decide (j < MAX_LENGTH)); [lia|done].
  - eexists. apply MainJs_imageDataToTensor_eq. reflexivity.
Qed.

(** C2, as the code has it. When the buffer without its alpha bytes does
    not have [3 * WIDTH * WIDTH] entries, main.js writes one
    "Mismatching data sizes" error on the console and goes on: it returns
    the tensor, with its [3 * WIDTH * WIDTH] slots, that the final script
    (which has no size check) builds for the same buffer. *)
Theorem imageDataToTensor_mismatch_logged
    (data : list Z) (dims : list nat) (st : MainJs.state) :
  length (alpha_removed data) ≠ MAX_LENGTH →
  let st0 := MainJs.set_imageData data st in
  let t := Part001.imageDataToTensor data dims in
  MainJs.imageDataToTensor data dims st0 =
    (inr t,
     MainJs.console_error
       (error_message (MainJs.mismatch_message (length (alpha_removed data)))) st0) ∧
  length (ort.data t) = MAX_LENGTH.
Proof.
  intros Hne st0 t. subst st0 t. split; [|apply length_builder].
  rewrite (MainJs_imageDataToTensor_eq data data dims) by reflexivity.
  unfold logged. revert Hne. generalize MAX_LENGTH. intros M Hne.
  destruct (bool_decide_reflect (M ≠ length (alpha_removed data))) as [_|Heq];
    [reflexivity|].
  exfalso. apply Heq. intros ->. by apply Hne.
Qed.

Lemma imageDataToTensor_mismatch_logged_witness :
  let data := [255; 0; 0; 255]%Z in
  let st0 := MainJs.set_imageData data (MainJs.initial "") in
  let t := Part001.imageDataToTensor data DIMS in
  MainJs.imageDataToTensor data DIMS st0 =
    (inr t,
     MainJs.console_error
       (error_message (MainJs.mismatch_message (length (alpha_removed data)))) st0) ∧
  length (ort.data t) = MAX_LENGTH.
Proof.
  apply (imageDataToTensor_mismatch_logged [255; 0; 0; 255]%Z DIMS (MainJs.initial "")).
  change (length (alpha_removed [255; 0; 0; 255]%Z)) with 3.
  rewrite MAX_LENGTH_eq. unfold WIDTH. lia.
Defined.

(** C2, as stated, fails on the one-pixel buffer: without its alpha byte
    it has 3 entries, not [3 * WIDTH * WIDTH], and main.js returns a
    tensor instead of throwing. *)
Lemma imageDataToTensor_mismatch_not_aborted :
  let data := [255; 0; 0; 255]%Z in
  let st0 := MainJs.set_imageData data (MainJs.initial "") in
  length (alpha_removed data) = 3 ∧
  3 ≠ MAX_LENGTH ∧
  MainJs.imageDataToTensor data DIMS st0 =
    (inr (Part001.imageDataToTensor data DIMS),
     MainJs.console_error
       (error_message "Mismatching data sizes: 150528 != 3") st0) ∧
  ∀ e st', MainJs.imageDataToTensor data DIMS st0 ≠ (inl e, st').
Proof.
  intros data st0.
  assert (3 ≠ MAX_LENGTH) as Hne.
  { rewrite MAX_LENGTH_eq. unfold WIDTH. lia. }
  assert (MainJs.imageDataToTensor data DIMS st0 =
    (inr (Part001.imageDataToTensor data DIMS),
     MainJs.console_error
       (error_message "Mismatching data sizes: 150528 != 3") st0)) as Hrun.
  { subst st0. rewrite (MainJs_imageDataToTensor_eq data data DIMS) by reflexivity.
    unfold logged.
    change (length (alpha_removed data)) with 3.
    destruct (bool_decide_reflect (MAX_LENGTH ≠ 3)) as [_|Heq].
    - assert (MainJs.mismatch_message 3 = "Mismatching data sizes: 150528 != 3") as Hmsg.
      { vm_compute. reflexivity. }
      rewrite Hmsg. reflexivity.
    - exfalso. apply Heq. intros Heq'. apply Hne. symmetry. exact Heq'. }
  split; [reflexivity|]. split; [exact Hne|]. split; [exact Hrun|].
  intros e st'. rewrite Hrun. discriminate.
Qed.

(** ** The arg-max scan *)

Section Scan.

Lemma foldl_ext {A B} (f g : A → B → A) (l : list B) :
  (∀ a b, f a b = g a b) → ∀ a, foldl f a l = foldl g a l.
Proof.
  intros Hfg. induction l as [|b l IH]; intros a; [done|].
  cbn [foldl]. by rewrite Hfg, IH.
Qed.

Lemma argMax_scan arr :
  Part001.argMax arr =
    foldl (scan_step arr) (JS.f32_get arr 0, 0) (seq 1 (length arr - 1)).
Proof.
  unfold Part001.argMax. apply foldl_ext. by intros [max maxIndex] i.
Qed.

Lemma scan_invariant arr n :
  n < length arr →
  ∃ m k, foldl (scan_step arr) (JS.f32_get arr 0, 0) (seq 1 n) = (Some m, k) ∧
         scanned arr n m k.
Proof.
  induction n as [|n IH]; intros Hn.
  - destruct (lookup_lt_is_Some_2 arr 0 Hn) as [m0 Hm0].
    exists m0, 0. cbn [seq foldl]. unfold JS.f32_get. rewrite Hm0.
    split; [done|]. repeat split; [done|done| |intros; lia].
    intros j x Hj Hx. assert (j = 0) as -> by lia.
    rewrite Hm0 in Hx. injection Hx as ->. apply gt_irrefl.
  - destruct (IH ltac:(lia)) as (m & k & Hfold & Hk & Hm & Hmax & Hfirst).
    destruct (lookup_lt_is_Some_2 arr (S n) Hn) as [x' Hx'].
    rewrite seq_S, foldl_app, Hfold. cbn [foldl Nat.add scan_step].
    unfold JS.f32_get. rewrite Hx'.
    change (JS.value_gt (Some x') (Some m)) with (JS.gt x' m).
    destruct (JS.gt x' m) eqn:Hgt.
    + exists x', (S n). split; [done|]. repeat split; [done|done| |].
      * intros j x Hj Hx. destruct (decide (j = S n)) as [->|Hne].
        -- rewrite Hx' in Hx. injection Hx as ->. apply gt_irrefl.
        -- destruct (JS.gt x x') eqn:Hxx'; [|done].
           rewrite <- (Hmax j x ltac:(lia) Hx). symmetry.
           by apply (gt_trans m x' x).
      * intros j x Hj Hx.
        destruct (JS.ge x x') eqn:Hxx'; [|done].
        rewrite <- (Hmax j x ltac:(lia) Hx). symmetry.
        by apply (ge_gt_trans m x' x).
    + exists m, k. split; [done|]. repeat split; [lia|done| |done].
      intros j x Hj Hx. destruct (decide (j = S n)) as [->|Hne].
      * rewrite Hx' in Hx. by injection Hx as ->.
      * apply (Hmax j x); [lia|done].
Qed.

(** main.js keeps the same running maximum as the final script, next to
    its list of record-setting indices. *)
Lemma indexOfMax_scan arr (l : list nat) : ∀ max maxIndex sorted,
  (let '(max', maxIndex', _) :=
     foldl (λ '(max, maxIndex, sorted) i,
              if JS.value_gt (JS.f32_get arr i) max
              then (JS.f32_get arr i, i, sorted ++ [i])
              else (max, maxIndex, sorted))
           (max, maxIndex, sorted) l in
   (max', maxIndex')) = foldl (scan_step arr) (max, maxIndex) l.
Proof.
  induction l as [|i l IH]; intros max maxIndex sorted; [done|].
  cbn [foldl scan_step].
  destruct (JS.value_gt (JS.f32_get arr i) max); apply IH.
Qed.

Lemma indexOfMax_argMax arr : (MainJs.indexOfMax arr).1 = (Part001.argMax arr).2.
Proof.
  rewrite argMax_scan. unfold MainJs.indexOfMax.
  rewrite <- (indexOfMax_scan arr _ (JS.f32_get arr 0) 0 []).
  destruct (foldl _ _ _) as [[max maxIndex] sorted]. done.
Qed.

End Scan.

(** ** The inference call *)

Section Run.
Variable classes : list string.

(** A request whose engine hands back [arr]: the class at the arg-max
    index is recorded and the busy flag drops. *)
Lemma run_outputs engine t arr (st : Part001.state) :
  engine_outputs engine t arr →
  Part001.run classes engine t st =
    (inr (), Part001.set_isRunning false
               (Part001.set_predictedClass
                  (Some (JS.template (classes !! (Part001.argMax arr).2))) st)).
Proof.
  intros (session & results & out & Hc & Hr & Ho & <-).
  unfold Part001.run, try_catch, bind. rewrite Hc. cbn [await ret].
  rewrite Hr. cbn [await ret]. unfold property_of. rewrite Ho. cbn [ret].
  destruct (Part001.argMax (ort.data out)) as [maxValue maxIndex]. reflexivity.
Qed.

(** A request whose engine fails with [e]: the error goes to the console
    and the busy flag drops. *)
Lemma run_fails engine t e (st : Part001.state) :
  engine_fails engine t e →
  Part001.run classes engine t st =
    (inr (), Part001.set_isRunning false
               (Part001.console_error (error_object e) st)).
Proof.
  intros [Hc | (session & Hc & Hr)];
    unfold Part001.run, try_catch, bind; rewrite Hc; cbn [await ret throw].
  - reflexivity.
  - rewrite Hr. reflexivity.
Qed.

(** Whatever the engine does, [run] returns and leaves the busy flag
    down. *)
Lemma run_total engine t (st : Part001.state) :
  (Part001.run classes engine t st).1 = inr () ∧
  Part001.isRunning (Part001.run classes engine t st).2 = false.
Proof.
  unfold Part001.run, try_catch, bind.
  destruct (ort.create engine _) as [e|session]; cbn [await ret throw]; [done|].
  destruct (ort.run session _) as [e|results]; cbn [await ret throw]; [done|].
  unfold property_of. destruct (results !! "output1") as [out|]; cbn [ret throw]; [|done].
  by destruct (Part001.argMax (ort.data out)) as [maxValue maxIndex].
Qed.

Lemma MainJs_run_outputs engine t dims arr (st : MainJs.state) :
  engine_outputs engine t arr →
  MainJs.run classes engine t dims st =
    (inr (), MainJs.set_target_innerHTML
               (JS.template (classes !! (MainJs.indexOfMax arr).1)) st).
Proof.
  intros (session & results & out & Hc & Hr & Ho & <-).
  unfold MainJs.run, try_catch, bind. rewrite Hc. cbn [await ret].
  rewrite Hr. cbn [await ret]. unfold property_of. rewrite Ho. cbn [ret].
  destruct (MainJs.indexOfMax (ort.data out)) as [maxIdx sortedMaxIdx]. reflexivity.
Qed.


Lemma MainJs_run_total engine t dims (st : MainJs.state) :
  (MainJs.run classes engine t dims st).1 = inr ().
Proof.
  unfold MainJs.run, try_catch, bind.
  destruct (ort.create engine _) as [e|session]; cbn [await ret throw]; [done|].
  destruct (ort.run session _) as [e|results]; cbn [await ret throw]; [done|].
  unfold property_of. destruct (results !! "output1") as [out|]; cbn [ret throw]; [|done].
  by destruct (MainJs.indexOfMax (ort.data out)) as [maxIdx sortedMaxIdx].
Qed.

End Run.

Lemma engine_returning_outputs arr t : engine_outputs (engine_returning arr) t arr.
Proof.
  unfold engine_outputs, engine_returning. cbn [ort.create ort.run].
  eexists _, _, _. split; [reflexivity|]. split; [reflexivity|].
  split; [apply lookup_singleton_eq|reflexivity].
Defined.

Lemma engine_without_model_fails t :
  engine_fails engine_without_model t (ort.EngineError "failed to load model").
Proof. left. reflexivity. Defined.

(** After a failed request the page shows what an idle script shows for
    the class it already had: the error itself is on the console only. *)
Lemma on_interval_after_failure classes engine t e (st : Part001.state) :
  engine_fails engine t e →
  Part001.target_innerHTML
    (Part001.on_interval (Part001.run classes engine t st).2) =
  Part001.target_innerHTML
    (Part001.on_interval (Part001.set_isRunning false st)).
Proof.
  intros Hfail. rewrite (run_fails classes engine t e st Hfail).
  unfold Part001.on_interval. cbn [snd Part001.isRunning Part001.set_isRunning
    Part001.predictedClass Part001.console_error].
  by destruct (bool_decide _).
Qed.

(** ** Properties of the decoder, the inference call and the renderer *)

(** C3. On a non-empty vector [argMax] returns the value [m] and the index
    [k] of the first maximal element: [m] is the element at [k], no element
    is greater than [m] (the comparison is the strict [>] of the loop), and
    no element before [k] is greater than or equal to [m], so that ties go
    to the lowest index.  [indexOfMax] returns the same index.  On a vector
    without NaN this reads: every element is at most [m], and every element
    before [k] is strictly smaller. *)
Theorem argMax_first_maximum (arr : list JS.number) :
  arr ≠ [] →
  ∃ m k,
    Part001.argMax arr = (Some m, k) ∧
    (MainJs.indexOfMax arr).1 = k ∧
    arr !! k = Some m ∧
    (∀ j x, arr !! j = Some x → JS.gt x m = false) ∧
    (∀ j x, j < k → arr !! j = Some x → JS.ge x m = false) ∧
    (Forall (λ x, JS.is_nan x = false) arr →
     ∀ j x, arr !! j = Some x →
            JS.le x m = true ∧ (j < k → JS.gt m x = true)).
Proof.
  intros Hne.
  assert (length arr - 1 < length arr) as Hlen.
  { destruct arr; [done|]. cbn [length]. lia. }
  destruct (scan_invariant arr (length arr - 1) Hlen)
    as (m & k & Hfold & Hk & Hm & Hmax & Hfirst).
  assert (Part001.argMax arr = (Some m, k)) as Harg.
  { by rewrite argMax_scan. }
  assert (∀ j x, arr !! j = Some x → JS.gt x m = false) as Hmax'.
  { intros j x Hx. apply (Hmax j x); [|done].
    apply lookup_lt_Some in Hx. lia. }
  exists m, k. split; [done|]. split; [by rewrite indexOfMax_argMax, Harg|].
  split; [done|]. split; [done|]. split; [done|].
  intros Hnan j x Hx.
  assert (JS.is_nan x = false) as Hx_nan.
  { exact (Forall_lookup_1 _ arr j x Hnan Hx). }
  assert (JS.is_nan m = false) as Hm_nan.
  { exact (Forall_lookup_1 _ arr k m Hnan Hm). }
  split.
  - apply SFleb_total; [done|done|]. exact (Hmax' j x Hx).
  - intros Hj. apply SFltb_total; [done|done|]. exact (Hfirst j x Hj Hx).
Qed.

Lemma argMax_first_maximum_witness :
  (Part001.argMax tie_example).2 = 1 ∧
  (MainJs.indexOfMax tie_example).1 = 1 ∧
  ∃ m k,
    Part001.argMax tie_example = (Some m, k) ∧
    (MainJs.indexOfMax tie_example).1 = k ∧
    tie_example !! k = Some m ∧
    (∀ j x, tie_example !! j = Some x → JS.gt x m = false) ∧
    (∀ j x, j < k → tie_example !! j = Some x → JS.ge x m = false) ∧
    (Forall (λ x, JS.is_nan x = false) tie_example →
     ∀ j x, tie_example !! j = Some x →
            JS.le x m = true ∧ (j < k → JS.gt m x = true)).
Proof.
  split; [vm_compute; reflexivity|]. split; [vm_compute; reflexivity|].
  apply (argMax_first_maximum tie_example). discriminate.
Defined.

(** C7. The decoder is deterministic: two requests whose engine output is
    the same vector end with the same label, whatever the tensors, the
    engines and the states they started from; the label is the class at
    the arg-max index of the vector and nothing else. *)
Theorem decoder_deterministic
    (classes : list string) (arr : list JS.number)
    (engine1 engine2 : ort.Engine) (t1 t2 : ort.Tensor)
    (st1 st2 : Part001.state) (dims1 dims2 : list nat) (m1 m2 : MainJs.state) :
  engine_outputs engine1 t1 arr →
  engine_outputs engine2 t2 arr →
  Part001.predictedClass (Part001.run classes engine1 t1 st1).2 =
    Part001.predictedClass (Part001.run classes engine2 t2 st2).2 ∧
  Part001.predictedClass (Part001.run classes engine1 t1 st1).2 =
    Some (JS.template (classes !! (Part001.argMax arr).2)) ∧
  MainJs.target_innerHTML (MainJs.run classes engine1 t1 dims1 m1).2 =
    MainJs.target_innerHTML (MainJs.run classes engine2 t2 dims2 m2).2 ∧
  MainJs.target_innerHTML (MainJs.run classes engine1 t1 dims1 m1).2 =
    JS.template (classes !! (MainJs.indexOfMax arr).1).
Proof.
  intros H1 H2.
  rewrite (run_outputs classes engine1 t1 arr st1 H1).
  rewrite (run_outputs classes engine2 t2 arr st2 H2).
  rewrite (MainJs_run_outputs classes engine1 t1 dims1 arr m1 H1).
  rewrite (MainJs_run_outputs classes engine2 t2 dims2 arr m2 H2).
  done.
Qed.

Lemma decoder_deterministic_witness :
  let classes := ["tench"; "goldfish"; "great white shark"; "tiger shark"] in
  let e := engine_returning tie_example in
  let t1 := ort.mkTensor "float32" [] DIMS in
  let t2 := ort.mkTensor "float32" [JS.of_Z 1] DIMS in
  let st1 := Part001.initial "" in
  let st2 := Part001.set_predictedClass (Some "tench") (Part001.onchange true st1) in
  let m1 := MainJs.initial "" in
  let m2 := MainJs.set_target_innerHTML "tench" m1 in
  Part001.predictedClass (Part001.run classes e t1 st1).2 =
    Part001.predictedClass (Part001.run classes e t2 st2).2 ∧
  Part001.predictedClass (Part001.run classes e t1 st1).2 =
    Some (JS.template (classes !! (Part001.argMax tie_example).2)) ∧
  MainJs.target_innerHTML (MainJs.run classes e t1 DIMS m1).2 =
    MainJs.target_innerHTML (MainJs.run classes e t2 DIMS m2).2 ∧
  MainJs.target_innerHTML (MainJs.run classes e t1 DIMS m1).2 =
    JS.template (classes !! (MainJs.indexOfMax tie_example).1).
Proof.
  intros classes e t1 t2 st1 st2 m1 m2.
  apply (decoder_deterministic classes tie_example e e t1 t2 st1 st2 DIMS DIMS m1 m2).
  - apply engine_returning_outputs.
  - apply engine_returning_outputs.
Defined.

(** C9. On the empty vector the scan does not fail: [argMax] returns
    [undefined] with index 0 and [indexOfMax] returns index 0 with an
    empty list; a request whose engine output is empty thus ends, with no
    error raised or logged, on the class at index 0. *)
Theorem argMax_empty
    (classes : list string) (engine : ort.Engine) (t : ort.Tensor)
    (st : Part001.state) (dims : list nat) (m : MainJs.state) :
  engine_outputs engine t [] →
  Part001.argMax [] = (None, 0) ∧
  MainJs.indexOfMax [] = (0, []) ∧
  Part001.run classes engine t st =
    (inr (), Part001.set_isRunning false
               (Part001.set_predictedClass (Some (JS.template (classes !! 0))) st)) ∧
  MainJs.run classes engine t dims m =
    (inr (), MainJs.set_target_innerHTML (JS.template (classes !! 0)) m).
Proof.
  intros Hout. split; [reflexivity|]. split; [reflexivity|]. split.
  - exact (run_outputs classes engine t [] st Hout).
  - exact (MainJs_run_outputs classes engine t dims [] m Hout).
Qed.

Lemma argMax_empty_witness :
  let classes := ["tench"; "goldfish"] in
  let engine := engine_returning [] in
  let t := ort.mkTensor "float32" [] DIMS in
  Part001.argMax [] = (None, 0) ∧
  MainJs.indexOfMax [] = (0, []) ∧
  Part001.run classes engine t (Part001.initial "") =
    (inr (), Part001.set_isRunning false
               (Part001.set_predictedClass (Some (JS.template (classes !! 0)))
                  (Part001.initial ""))) ∧
  MainJs.run classes engine t DIMS (MainJs.initial "") =
    (inr (), MainJs.set_target_innerHTML (JS.template (classes !! 0)) (MainJs.initial "")).
Proof.
  intros classes engine t.
  apply (argMax_empty classes engine t (Part001.initial "") DIMS (MainJs.initial "")).
  apply engine_returning_outputs.
Defined.



(** C10. In the state the script starts in ([isRunning] false,
    [predictedClass] undefined) the interval callback takes the result
    branch: it compares [predictedClass] with the string "undefined", not
    with the undefined value, so the page shows the result line with
    "undefined" in it instead of the empty string.  The empty display is
    reached exactly when the script is idle and [predictedClass] is the
    string "undefined". *)
Theorem on_interval_initial (html : string) :
  Part001.isRunning (Part001.initial html) = false ∧
  Part001.predictedClass (Part001.initial html) = None ∧
  Part001.on_interval (Part001.initial html) =
    Part001.set_target_innerHTML "<h3>I think it's a undefined!" (Part001.initial html) ∧
  Part001.target_innerHTML (Part001.on_interval (Part001.initial html)) ≠ "" ∧
  (∀ st, Part001.target_innerHTML (Part001.on_interval st) = "" ↔
         Part001.isRunning st = false ∧ Part001.predictedClass st = Some "undefined").
Proof.
  split; [reflexivity|]. split; [reflexivity|]. split; [reflexivity|].
  split; [discriminate|].
  intros st. unfold Part001.on_interval.
  destruct (Part001.isRunning st).
  - split; [discriminate|]. intros [? _]. discriminate.
  - destruct (bool_decide_reflect (Part001.predictedClass st ≠ Some "undefined"))
      as [Hne|Heq].
    + split; [discriminate|]. intros [_ ?]. contradiction.
    + split; [|reflexivity]. intros _. split; [reflexivity|].
      destruct (decide (Part001.predictedClass st = Some "undefined")); [done|].
      contradiction.
Qed.

(** ** Further properties of the tensor builder *)

(** X1. Whatever the length of the buffer, the plane of channel [c] starts
    at [c] times the number of pixels the buffer holds: byte [4 * k + c]
    lands, normalized, in slot [c * pixels + k], as long as that slot is
    inside the typed array. *)
Theorem imageDataToTensor_planes_follow_pixels
    (data : list Z) (dims : list nat) (c k : nat) (v : Z) :
  c < 3 → k < pixels data →
  c * pixels data + k < MAX_LENGTH →
  data !! (4 * k + c) = Some v →
  ort.data (Part001.imageDataToTensor data dims) !! (c * pixels data + k) =
    Some (normalize v).
Proof.
  intros Hc Hk Hslot Hv. rewrite lookup_builder.
  destruct (decide (c * pixels data + k < MAX_LENGTH)); [|lia].
  assert (c * pixels data + k < 3 * pixels data) as Hj.
  { assert (c = 0 ∨ c = 1 ∨ c = 2) as [-> | [-> | ->]] by lia; lia. }
  destruct (decide (c * pixels data + k < 3 * pixels data)); [|lia].
  unfold JS.array_get. rewrite lookup_planar by done.
  unfold JS.u8_get. rewrite Hv. reflexivity.
Qed.

Lemma imageDataToTensor_planes_follow_pixels_witness :
  ort.data (Part001.imageDataToTensor [1; 2; 3; 4; 5; 6; 7; 8]%Z DIMS)
    !! (1 * pixels [1; 2; 3; 4; 5; 6; 7; 8]%Z + 1) = Some (normalize 6).
Proof.
  apply (imageDataToTensor_planes_follow_pixels [1; 2; 3; 4; 5; 6; 7; 8]%Z DIMS 1 1 6).
  - lia.
  - vm_compute. lia.
  - change (pixels [1; 2; 3; 4; 5; 6; 7; 8]%Z) with 2.
    rewrite MAX_LENGTH_eq. unfold WIDTH. lia.
  - reflexivity.
Defined.

(** X2. A buffer that stops in the middle of its last pixel yields NaN:
    the slot of a channel byte that lies past the end of the buffer
    receives [undefined / 255], which is NaN. *)
Theorem imageDataToTensor_short_pixel_NaN
    (data : list Z) (dims : list nat) (c k : nat) :
  c < 3 → k < pixels data →
  c * pixels data + k < MAX_LENGTH →
  length data ≤ 4 * k + c →
  ort.data (Part001.imageDataToTensor data dims) !! (c * pixels data + k) =
    Some JS.NaN.
Proof.
  intros Hc Hk Hslot Hlen. rewrite lookup_builder.
  destruct (decide (c * pixels data + k < MAX_LENGTH)); [|lia].
  assert (c * pixels data + k < 3 * pixels data) as Hj.
  { assert (c = 0 ∨ c = 1 ∨ c = 2) as [-> | [-> | ->]] by lia; lia. }
  destruct (decide (c * pixels data + k < 3 * pixels data)); [|lia].
  unfold JS.array_get. rewrite lookup_planar by done.
  unfold JS.u8_get. rewrite lookup_ge_None_2 by lia. reflexivity.
Qed.

Lemma imageDataToTensor_short_pixel_NaN_witness :
  ort.data (Part001.imageDataToTensor [1; 2; 3; 4; 5]%Z DIMS)
    !! (1 * pixels [1; 2; 3; 4; 5]%Z + 1) = Some JS.NaN.
Proof.
  apply (imageDataToTensor_short_pixel_NaN [1; 2; 3; 4; 5]%Z DIMS 1 1).
  - lia.
  - vm_compute. lia.
  - change (pixels [1; 2; 3; 4; 5]%Z) with 2.
    rewrite MAX_LENGTH_eq. unfold WIDTH. lia.
  - cbn [length]. lia.
Defined.

Lemma channel_same_colours d1 d2 c n :
  same_colours d1 d2 → c < 3 → channel d1 c 0 n = channel d2 c 0 n.
Proof.
  intros [_ Hsame] Hc. unfold channel. apply list_fmap_ext.
  intros _ k _. unfold JS.u8_get. rewrite Hsame; [done|].
  replace (0 + 4 * k + c) with (4 * k + c) by lia.
  rewrite mod4 by lia. lia.
Qed.

(** X3. The alpha bytes are never read: two buffers of the same length
    that agree outside the alpha positions give the same tensor. *)
Theorem imageDataToTensor_ignores_alpha (d1 d2 : list Z) (dims : list nat) :
  same_colours d1 d2 →
  Part001.imageDataToTensor d1 dims = Part001.imageDataToTensor d2 dims.
Proof.
  intros Hsame.
  assert (pixels d1 = pixels d2) as Hpx.
  { unfold pixels. by rewrite (proj1 Hsame). }
  assert (planar d1 = planar d2) as Hplanar.
  { unfold planar. rewrite Hpx.
    rewrite (channel_same_colours d1 d2 0), (channel_same_colours d1 d2 1),
      (channel_same_colours d1 d2 2) by (done || lia). done. }
  pose proof (builder_data d1 dims) as H1.
  pose proof (builder_data d2 dims) as H2.
  rewrite Hplanar in H1. rewrite <- H2 in H1.
  unfold Part001.imageDataToTensor in *.
  destruct (channel_loop (length d1) d1 0 [] [] []) as [[R1 G1] B1].
  destruct (channel_loop (length d2) d2 0 [] [] []) as [[R2 G2] B2].
  cbn [ort.data] in H1. by rewrite H1.
Qed.

Lemma imageDataToTensor_ignores_alpha_witness :
  Part001.imageDataToTensor [10; 20; 30; 255]%Z DIMS =
  Part001.imageDataToTensor [10; 20; 30; 0]%Z DIMS.
Proof.
  apply (imageDataToTensor_ignores_alpha [10; 20; 30; 255]%Z [10; 20; 30; 0]%Z DIMS).
  split; [reflexivity|].
  intros [|[|[|[|i]]]] Hi; try reflexivity. exfalso. apply Hi. reflexivity.
Defined.

Lemma normalize_steps :
  forallb (λ n, JS.gt (normalize (Z.of_nat (S n))) (normalize (Z.of_nat n)))
          (seq 0 255) = true.
Proof. vm_compute. reflexivity. Qed.

Lemma normalize_step (n : nat) :
  n < 255 → JS.gt (normalize (Z.of_nat (S n))) (normalize (Z.of_nat n)) = true.
Proof.
  intros Hn. pose proof normalize_steps as H.
  rewrite forallb_forall in H. apply (H n), in_seq. lia.
Qed.

(** X4. Normalization keeps the order of the bytes strictly: a larger byte
    gives a larger tensor value, so no two of the 256 byte values collapse
    in the [Float32Array]. *)
Theorem normalize_strictly_increasing (a b : Z) :
  (0 ≤ a)%Z → (a < b)%Z → (b ≤ 255)%Z →
  JS.gt (normalize b) (normalize a) = true.
Proof.
  intros Ha Hab Hb.
  assert (∀ d n : nat, n + S d ≤ 255 →
            JS.gt (normalize (Z.of_nat (n + S d))) (normalize (Z.of_nat n)) = true)
    as Hsteps.
  { induction d as [|d IH]; intros n Hn.
    - replace (n + 1) with (S n) by lia. apply normalize_step. lia.
    - apply (gt_trans _ (normalize (Z.of_nat (n + S d)))).
      + replace (n + S (S d)) with (S (n + S d)) by lia.
        apply normalize_step. lia.
      + apply IH. lia. }
  specialize (Hsteps (Z.to_nat (b - a) - 1) (Z.to_nat a) ltac:(lia)).
  replace (Z.of_nat (Z.to_nat a + S (Z.to_nat (b - a) - 1))) with b in Hsteps by lia.
  by rewrite Z2Nat.id in Hsteps by lia.
Qed.

Lemma normalize_strictly_increasing_witness :
  JS.gt (normalize 128) (normalize 127) = true.
Proof. apply (normalize_strictly_increasing 127 128); lia. Defined.

(** ** Further properties of main.js *)

(** Without its alpha bytes a buffer of [4 * n + r] bytes, [r < 4], has
    [3 * n + r] bytes. *)
Lemma length_filter_index_general n : ∀ q r (l : list Z),
  r < 4 → length l = 4 * n + r →
  length (JS.filter_index (λ i, negb (i mod 4 =? 3)) (4 * q) l) = 3 * n + r.
Proof.
  induction n as [|n IH]; intros q r l Hr Hl.
  - destruct l as [|a [|b [|c [|d l]]]]; cbn [length] in Hl; try lia;
      cbn [JS.filter_index].
    + done.
    + replace (4 * q) with (4 * q + 0) by lia. rewrite mod4 by lia. cbn. lia.
    + replace (4 * q) with (4 * q + 0) at 1 by lia.
      replace (S (4 * q)) with (4 * q + 1) by lia.
      rewrite !mod4 by lia. cbn. lia.
    + replace (4 * q) with (4 * q + 0) at 1 by lia.
      replace (S (4 * q)) with (4 * q + 1) by lia.
      replace (S (4 * q + 1)) with (4 * q + 2) by lia.
      rewrite !mod4 by lia. cbn. lia.
  - destruct l as [|a [|b [|c [|d l]]]]; cbn [length] in Hl; try lia.
    rewrite filter_index_quad. cbn [length]. rewrite (IH (S q) r) by lia. lia.
Qed.

Lemma console_error_neq c (st : MainJs.state) : MainJs.console_error c st ≠ st.
Proof.
  intros Heq. apply (f_equal (λ s, length (MainJs.console s))) in Heq.
  cbn in Heq. rewrite length_app in Heq. cbn in Heq. lia.
Qed.

Lemma MainJs_imageDataToTensor_state data dims st :
  (MainJs.imageDataToTensor data dims st).2 = logged data st.
Proof.
  destruct (MainJs.imageData st) as [buf|] eqn:Hbuf.
  - by rewrite (MainJs_imageDataToTensor_eq data buf dims st Hbuf).
  - by rewrite (MainJs_imageDataToTensor_undefined data dims st Hbuf).
Qed.

(** X5. The size check of main.js stays silent for exactly two buffer
    lengths: [4 * WIDTH * WIDTH], and one byte less (the last alpha byte
    missing); for every other length it writes its message. *)
Theorem size_check_silent (data : list Z) (dims : list nat) (st : MainJs.state) :
  (MainJs.imageDataToTensor data dims st).2 = st ↔
  length data = 4 * (WIDTH * WIDTH) ∨ length data + 1 = 4 * (WIDTH * WIDTH).
Proof.
  rewrite MainJs_imageDataToTensor_state. unfold logged.
  pose proof (Nat.div_mod_eq (length data) 4) as Hd.
  pose proof (Nat.mod_upper_bound (length data) 4 ltac:(lia)) as Hm.
  assert (length (alpha_removed data) = 3 * (length data / 4) + length data mod 4)
    as Hfiltered.
  { exact (length_filter_index_general (length data / 4) 0 (length data mod 4)
             data Hm Hd). }
  rewrite Hfiltered, MAX_LENGTH_eq.
  revert Hd Hm. generalize (length data / 4) (length data mod 4) (WIDTH * WIDTH).
  intros n r m Hd Hm.
  destruct (bool_decide_reflect (3 * m ≠ 3 * n + r)) as [Hne|Heq].
  - split; [intros H; by apply console_error_neq in H|lia].
  - split; [lia|done].
Qed.

(** X6. main.js builds its tensor from the variable [imageData], not from
    its argument: the tensor returned (or the error thrown) is the same
    for any two arguments, and it is the tensor of the buffer held in
    [imageData]. *)
Theorem MainJs_imageDataToTensor_argument_unused
    (data1 data2 : list Z) (dims : list nat) (st : MainJs.state) :
  (MainJs.imageDataToTensor data1 dims st).1 =
    (MainJs.imageDataToTensor data2 dims st).1 ∧
  (∀ buf, MainJs.imageData st = Some buf →
          (MainJs.imageDataToTensor data1 dims st).1 =
            inr (Part001.imageDataToTensor buf dims)).
Proof.
  destruct (MainJs.imageData st) as [buf|] eqn:Hbuf.
  - rewrite (MainJs_imageDataToTensor_eq data1 buf dims st Hbuf).
    rewrite (MainJs_imageDataToTensor_eq data2 buf dims st Hbuf).
    split; [done|]. by intros buf' [= <-].
  - rewrite (MainJs_imageDataToTensor_undefined data1 dims st Hbuf).
    rewrite (MainJs_imageDataToTensor_undefined data2 dims st Hbuf).
    split; [done|]. by intros buf' [=].
Qed.

(** X7. Called while [imageData] is still undefined (no image has been
    handled yet), the builder of main.js throws a TypeError, after its
    size check has run. *)
Theorem MainJs_imageDataToTensor_before_any_image
    (data : list Z) (dims : list nat) (st : MainJs.state) :
  MainJs.imageData st = None →
  MainJs.imageDataToTensor data dims st =
    (inl (ort.TypeError "length"), logged data st).
Proof. apply MainJs_imageDataToTensor_undefined. Qed.

Lemma MainJs_imageDataToTensor_before_any_image_witness :
  MainJs.imageDataToTensor [] DIMS (MainJs.initial "") =
    (inl (ort.TypeError "length"), logged [] (MainJs.initial "")).
Proof.
  apply (MainJs_imageDataToTensor_before_any_image [] DIMS (MainJs.initial "")).
  reflexivity.
Defined.

Lemma MainJs_run_imageData classes engine t dims (st : MainJs.state) :
  MainJs.imageData (MainJs.run classes engine t dims st).2 = MainJs.imageData st.
Proof.
  unfold MainJs.run, try_catch, bind.
  destruct (ort.create engine _) as [e|session]; cbn [await ret throw]; [done|].
  destruct (ort.run session _) as [e|results]; cbn [await ret throw]; [done|].
  unfold property_of. destruct (results !! "output1") as [out|]; cbn [ret throw]; [|done].
  by destruct (MainJs.indexOfMax (ort.data out)) as [maxIdx sortedMaxIdx].
Qed.

(** X8. [handleImageData] never throws: it stores the buffer in
    [imageData] before the builder reads it, and [run] catches what the
    engine throws.  It leaves the buffer in [imageData], and the request it
    makes is the one for the tensor of that buffer. *)
Theorem handleImageData_returns
    (classes : list string) (engine : ort.Engine) (resized : list Z)
    (st : MainJs.state) :
  MainJs.handleImageData classes engine resized st =
    MainJs.run classes engine (Part001.imageDataToTensor resized DIMS) DIMS
      (logged resized (MainJs.set_imageData resized st)) ∧
  (MainJs.handleImageData classes engine resized st).1 = inr () ∧
  MainJs.imageData (MainJs.handleImageData classes engine resized st).2 =
    Some resized.
Proof.
  assert (MainJs.handleImageData classes engine resized st =
    MainJs.run classes engine (Part001.imageDataToTensor resized DIMS) DIMS
      (logged resized (MainJs.set_imageData resized st))) as Heq.
  { unfold MainJs.handleImageData, bind at 1, modify.
    unfold bind at 1.
    by rewrite (MainJs_imageDataToTensor_eq resized resized DIMS
                  (MainJs.set_imageData resized st) eq_refl). }
  split; [done|]. rewrite Heq. split; [apply MainJs_run_total|].
  rewrite MainJs_run_imageData. unfold logged. by destruct (bool_decide _).
Qed.

(** ** Further properties of the arg-max scan *)

Lemma value_gt_undefined_l v : JS.value_gt None v = false.
Proof. unfold JS.value_gt, JS.gt, SFltb. cbn. by destruct (JS.to_number v). Qed.

(** A NaN maximum is never replaced, and a number is never replaced by
    NaN. *)
Lemma scan_nan arr (l : list nat) : ∀ m k,
  ∃ m' k', foldl (scan_step arr) (Some m, k) l = (Some m', k') ∧
           JS.is_nan m' = JS.is_nan m ∧
           (JS.is_nan m = true → k' = k).
Proof.
  induction l as [|i l IH]; intros m k; [by exists m, k|].
  cbn [foldl scan_step]. unfold JS.f32_get.
  destruct (arr !! i) as [x|].
  - change (JS.value_gt (Some x) (Some m)) with (JS.gt x m).
    destruct (JS.gt x m) eqn:Hgt; [|apply IH].
    destruct (gt_not_nan x m Hgt) as [Hx Hm].
    destruct (IH x i) as (m' & k' & Hfold & Hnan & _).
    exists m', k'. split; [done|]. split; [congruence|]. congruence.
  - rewrite value_gt_undefined_l. apply IH.
Qed.

Lemma record_nan arr (l : list nat) m k sorted :
  JS.is_nan m = true →
  foldl (record_step arr) (Some m, k, sorted) l = (Some m, k, sorted).
Proof.
  intros Hm. destruct m; try discriminate.
  induction l as [|i l IH]; [done|].
  cbn [foldl record_step].
  by change (JS.value_gt (JS.f32_get arr i) (Some S754_nan)) with false.
Qed.

Lemma indexOfMax_record arr :
  MainJs.indexOfMax arr =
    let '(max, maxIndex, sorted) :=
      foldl (record_step arr) (JS.f32_get arr 0, 0, []) (seq 1 (length arr - 1)) in
    (maxIndex, reverse sorted).
Proof.
  unfold MainJs.indexOfMax.
  rewrite (foldl_ext _ (record_step arr)); [done|].
  by intros [[max maxIndex] sorted] i.
Qed.

(** X9. NaN in the scan: when the first element is NaN it stays the
    maximum, so the index is 0 whatever follows and [indexOfMax] records
    nothing; when the first element is a number, the maximum returned is
    never NaN (NaN entries further on are skipped). *)
Theorem argMax_NaN (arr : list JS.number) (x0 : JS.number) :
  arr !! 0 = Some x0 →
  ∃ m k,
    Part001.argMax arr = (Some m, k) ∧
    JS.is_nan m = JS.is_nan x0 ∧
    (JS.is_nan x0 = true → k = 0 ∧ MainJs.indexOfMax arr = (0, [])).
Proof.
  intros H0. rewrite argMax_scan. unfold JS.f32_get at 1. rewrite H0.
  destruct (scan_nan arr (seq 1 (length arr - 1)) x0 0)
    as (m & k & Hfold & Hnan & Hk).
  exists m, k. split; [done|]. split; [done|].
  intros Hx0. split; [by apply Hk|].
  rewrite indexOfMax_record. unfold JS.f32_get at 1. rewrite H0.
  by rewrite record_nan.
Qed.

Lemma argMax_NaN_witness :
  ∃ m k,
    Part001.argMax [JS.NaN; JS.of_Z 5; JS.of_Z 7] = (Some m, k) ∧
    JS.is_nan m = JS.is_nan JS.NaN ∧
    (JS.is_nan JS.NaN = true →
     k = 0 ∧ MainJs.indexOfMax [JS.NaN; JS.of_Z 5; JS.of_Z 7] = (0, [])).
Proof.
  apply (argMax_NaN [JS.NaN; JS.of_Z 5; JS.of_Z 7] JS.NaN). reflexivity.
Defined.

Lemma above_trans arr c b a : above arr c b → above arr b a → above arr c a.
Proof.
  intros (x & y & Hc & Hb & Hxy) (y' & z & Hb' & Ha & Hyz).
  rewrite Hb in Hb'. injection Hb' as <-.
  exists x, z. split; [done|]. split; [done|]. by apply (gt_trans z y x).
Qed.

Lemma record_invariant arr n :
  n < length arr →
  ∃ m k sorted,
    foldl (record_step arr) (JS.f32_get arr 0, 0, []) (seq 1 n) = (Some m, k, sorted) ∧
    records arr n m k sorted.
Proof.
  induction n as [|n IH]; intros Hn.
  - destruct (lookup_lt_is_Some_2 arr 0 Hn) as [m0 Hm0].
    exists m0, 0, []. cbn [seq foldl]. unfold JS.f32_get. rewrite Hm0.
    split; [done|]. split; [done|]. split; [done|].
    split; [intros a Ha; by apply elem_of_nil in Ha|].
    intros i j a b _ Hi. by rewrite lookup_nil in Hi.
  - destruct (IH ltac:(lia)) as (m & k & sorted & Hfold & Hk & Hm & Hin & Hpairs).
    destruct (lookup_lt_is_Some_2 arr (S n) Hn) as [x' Hx'].
    rewrite seq_S, foldl_app, Hfold. cbn [foldl Nat.add record_step].
    unfold JS.f32_get. rewrite Hx'.
    change (JS.value_gt (Some x') (Some m)) with (JS.gt x' m).
    destruct (JS.gt x' m) eqn:Hgt.
    + assert (above arr (S n) k) as Hnk by (by exists x', m).
      assert (∀ i a, sorted !! i = Some a → above arr (S n) a) as Hnew.
      { intros i a Hi.
        assert (i < length sorted) as Hlt by (by eapply lookup_lt_Some).
        assert (sorted !! (length sorted - 1) = Some k) as Hlast.
        { rewrite last_lookup in Hk.
          replace (Init.Nat.pred (length sorted)) with (length sorted - 1) in Hk by lia.
          destruct (lookup_lt_is_Some_2 sorted (length sorted - 1) ltac:(lia))
            as [k0 Hk0].
          rewrite Hk0 in Hk. cbn in Hk. by subst k0. }
        destruct (decide (i = length sorted - 1)) as [->|Hne].
        - rewrite Hlast in Hi. by injection Hi as <-.
        - apply (above_trans arr (S n) k a); [done|].
          apply (Hpairs i (length sorted - 1) a k); [lia|done|done]. }
      exists x', (S n), (sorted ++ [S n]). split; [done|].
      split; [by rewrite last_snoc|]. split; [done|]. split.
      * intros a Ha. apply elem_of_app in Ha as [Ha|Ha].
        -- destruct (Hin a Ha) as [Ha1 Ha0]. split; [lia|done].
        -- apply list_elem_of_singleton in Ha as ->. split; [lia|].
           destruct sorted as [|s0 sorted'] eqn:Hs.
           ++ cbn in Hk. by subst k.
           ++ assert (k ∈ s0 :: sorted') as Hkin.
              { rewrite last_lookup in Hk.
                destruct ((s0 :: sorted') !! Init.Nat.pred (length (s0 :: sorted')))
                  as [k0|] eqn:Hk0.
                - cbn in Hk. subst k0. by eapply list_elem_of_lookup_2.
                - apply lookup_ge_None in Hk0. cbn [length] in Hk0. lia. }
              apply (above_trans arr (S n) k 0); [done|]. by apply Hin.
      * intros i j a b Hij Hi Hj.
        destruct (decide (j < length sorted)) as [Hjl|Hjl].
        -- rewrite lookup_app_l in Hi by lia. rewrite lookup_app_l in Hj by lia.
           by apply (Hpairs i j).
        -- assert (j = length sorted) as ->.
           { apply lookup_lt_Some in Hj. rewrite length_app in Hj. cbn in Hj. lia. }
           rewrite lookup_app_l in Hi by lia.
           rewrite lookup_app_r in Hj by lia.
           replace (length sorted - length sorted) with 0 in Hj by lia.
           cbn in Hj. injection Hj as <-.
           split; [|by apply (Hnew i)].
           assert (a ∈ sorted) as Ha by (by eapply list_elem_of_lookup_2).
           destruct (Hin a Ha). lia.
    + exists m, k, sorted. split; [done|]. split; [done|]. split; [done|].
      split; [|done]. intros a Ha. destruct (Hin a Ha). split; [lia|done].
Qed.

(** X10. The list [indexOfMax] returns next to the index holds the
    positions at which the running maximum was raised, latest first: the
    index returned is its head (or 0 when the list is empty), index 0 is
    never in it, each position holds an element greater than the first
    element of the vector, and going down the list both the positions and
    the elements at them strictly decrease. *)
Theorem indexOfMax_records (arr : list JS.number) :
  arr ≠ [] →
  ∃ k l,
    MainJs.indexOfMax arr = (k, l) ∧
    k = default 0 (head l) ∧
    (∀ a, a ∈ l → 1 ≤ a < length arr ∧ above arr a 0) ∧
    (∀ i j a b, i < j → l !! i = Some a → l !! j = Some b →
                b < a ∧ above arr a b).
Proof.
  intros Hne.
  assert (length arr - 1 < length arr) as Hlen.
  { destruct arr; [done|]. cbn [length]. lia. }
  destruct (record_invariant arr (length arr - 1) Hlen)
    as (m & k & sorted & Hfold & Hk & Hm & Hin & Hpairs).
  exists k, (reverse sorted). rewrite indexOfMax_record, Hfold.
  split; [done|]. split; [by rewrite head_reverse|]. split.
  - intros a Ha. rewrite elem_of_reverse in Ha. destruct (Hin a Ha). split; [lia|done].
  - intros i j a b Hij Hi Hj.
    apply reverse_lookup_Some in Hi as [Hi Hil].
    apply reverse_lookup_Some in Hj as [Hj Hjl].
    apply (Hpairs (length sorted - S j) (length sorted - S i) b a); [lia|done|done].
Qed.

Lemma indexOfMax_records_witness :
  ∃ k l,
    MainJs.indexOfMax [tenths 2; tenths 1; tenths 9; tenths 9] = (k, l) ∧
    k = default 0 (head l) ∧
    (∀ a, a ∈ l →
          1 ≤ a < length [tenths 2; tenths 1; tenths 9; tenths 9] ∧
          above [tenths 2; tenths 1; tenths 9; tenths 9] a 0) ∧
    (∀ i j a b, i < j → l !! i = Some a → l !! j = Some b →
                b < a ∧ above [tenths 2; tenths 1; tenths 9; tenths 9] a b).
Proof.
  apply (indexOfMax_records [tenths 2; tenths 1; tenths 9; tenths 9]). discriminate.
Defined.

(** X11. The pixel loop makes one iteration per started group of four
    bytes and stops on its own condition: with any fuel from that number
    on it returns what the script computes, three lists of that length. *)
Theorem channel_loop_iterations (data : list Z) (fuel : nat) :
  pixels data ≤ fuel →
  ∃ R G B,
    channel_loop fuel data 0 [] [] [] = (R, G, B) ∧
    channel_loop (length data) data 0 [] [] [] = (R, G, B) ∧
    length R = pixels data ∧ length G = pixels data ∧ length B = pixels data ∧
    4 * pixels data < length data + 4.
Proof.
  intros Hfuel. destruct (pixels_bounds data) as (Hle & Hup & Hin).
  eexists _, _, _. split; [by apply channel_loop_run|].
  split; [by apply channel_loop_run|].
  rewrite !length_channel. repeat split.
  destruct (pixels data) as [|n] eqn:Hn; [lia|].
  specialize (Hin n ltac:(lia)). lia.
Qed.

Lemma channel_loop_iterations_witness :
  ∃ R G B,
    channel_loop 2 [1; 2; 3; 4; 5]%Z 0 [] [] [] = (R, G, B) ∧
    channel_loop (length [1; 2; 3; 4; 5]%Z) [1; 2; 3; 4; 5]%Z 0 [] [] [] = (R, G, B) ∧
    length R = pixels [1; 2; 3; 4; 5]%Z ∧ length G = pixels [1; 2; 3; 4; 5]%Z ∧
    length B = pixels [1; 2; 3; 4; 5]%Z ∧
    4 * pixels [1; 2; 3; 4; 5]%Z < length [1; 2; 3; 4; 5]%Z + 4.
Proof.
  apply (channel_loop_iterations [1; 2; 3; 4; 5]%Z 2). vm_compute. lia.
Defined.

(** ** Further properties of the inference call and the page *)

Lemma result_line_not_loading c : result_line c ≠ Part001.loading_html.
Proof. intros H. vm_compute in H. discriminate H. Qed.

Lemma result_line_not_empty c : result_line c ≠ "".
Proof. discriminate. Qed.

(** X12. After a request whose engine hands back [arr], the next tick of
    the interval shows the result line for the class at the arg-max index;
    when the label table has no entry at that index (or the entry is the
    word "undefined") the page is emptied instead. *)
Theorem page_after_run
    (classes : list string) (engine : ort.Engine) (t : ort.Tensor)
    (arr : list JS.number) (st : Part001.state) :
  engine_outputs engine t arr →
  Part001.target_innerHTML
    (Part001.on_interval (Part001.run classes engine t st).2) =
  match classes !! (Part001.argMax arr).2 with
  | Some c => if decide (c = "undefined") then "" else result_line c
  | None => ""
  end.
Proof.
  intros Hout. rewrite (run_outputs classes engine t arr st Hout).
  unfold Part001.on_interval.
  cbn [snd Part001.isRunning Part001.set_isRunning Part001.predictedClass
       Part001.set_predictedClass].
  destruct (classes !! (Part001.argMax arr).2) as [c|].
  - change (JS.template (Some c)) with c.
    destruct (decide (c = "undefined")) as [->|Hc].
    + by rewrite bool_decide_eq_false_2 by (intros H; by apply H).
    + by rewrite bool_decide_eq_true_2 by (intros [= H]; by apply Hc).
  - change (JS.template None) with "undefined".
    by rewrite bool_decide_eq_false_2 by (intros H; by apply H).
Qed.

Lemma page_after_run_witness :
  Part001.target_innerHTML
    (Part001.on_interval
       (Part001.run ["tench"; "goldfish"] (engine_returning tie_example)
          (ort.mkTensor "float32" [] DIMS) (Part001.initial "")).2) =
  match ["tench"; "goldfish"] !! (Part001.argMax tie_example).2 with
  | Some c => if decide (c = "undefined") then "" else result_line c
  | None => ""
  end.
Proof.
  apply (page_after_run ["tench"; "goldfish"] (engine_returning tie_example)
           (ort.mkTensor "float32" [] DIMS) tie_example (Part001.initial "")).
  apply engine_returning_outputs.
Defined.

(** X13. The loading indicator: once a file has been selected the tick
    shows it, whatever was predicted before; once a request has completed,
    however the engine behaved, the tick no longer shows it. *)
Theorem loading_indicator
    (classes : list string) (engine : ort.Engine) (t : ort.Tensor)
    (st : Part001.state) :
  Part001.target_innerHTML (Part001.on_interval (Part001.onchange true st)) =
    Part001.loading_html ∧
  Part001.target_innerHTML
    (Part001.on_interval (Part001.run classes engine t st).2) ≠
    Part001.loading_html.
Proof.
  split; [reflexivity|].
  destruct (run_total classes engine t st) as [_ Hidle].
  unfold Part001.on_interval. rewrite Hidle.
  destruct (bool_decide _).
  - apply result_line_not_loading.
  - intros H. vm_compute in H. discriminate H.
Qed.

(** X14. A run that resolves without an [output1] is caught like a
    failure of the engine: the TypeError of reading its data goes to the
    console, the prediction is left as it was and the busy flag drops. *)
Theorem run_missing_output
    (classes : list string) (engine : ort.Engine) (t : ort.Tensor)
    (session : ort.InferenceSession) (results : gmap string ort.Tensor)
    (st : Part001.state) (dims : list nat) (m : MainJs.state) :
  ort.create engine "src/assets/model.onnx" = inr session →
  ort.run session {[ "input1" := t ]} = inr results →
  results !! "output1" = None →
  Part001.run classes engine t st =
    (inr (), Part001.set_isRunning false
               (Part001.console_error (error_object (ort.TypeError "output1")) st)) ∧
  MainJs.run classes engine t dims m =
    (inr (), MainJs.console_error (error_object (ort.TypeError "output1")) m).
Proof.
  intros Hc Hr Ho. split.
  - unfold Part001.run, try_catch, bind. rewrite Hc. cbn [await ret].
    rewrite Hr. cbn [await ret]. unfold property_of. by rewrite Ho.
  - unfold MainJs.run, try_catch, bind. rewrite Hc. cbn [await ret].
    rewrite Hr. cbn [await ret]. unfold property_of. by rewrite Ho.
Qed.

Lemma run_missing_output_witness :
  let t := ort.mkTensor "float32" [] DIMS in
  Part001.run [] engine_without_output t (Part001.initial "") =
    (inr (), Part001.set_isRunning false
               (Part001.console_error (error_object (ort.TypeError "output1"))
                  (Part001.initial ""))) ∧
  MainJs.run [] engine_without_output t DIMS (MainJs.initial "") =
    (inr (), MainJs.console_error (error_object (ort.TypeError "output1"))
               (MainJs.initial "")).
Proof.
  intros t.
  apply (run_missing_output [] engine_without_output t
           (ort.mkSession (λ _, inr ∅)) ∅ (Part001.initial "") DIMS (MainJs.initial ""));
    reflexivity.
Defined.

(** X15. A failed request leaves the previous prediction in place, and
    the page then shows what an idle page shows for it: the result line of
    the image classified before, or of "undefined" when there was none. *)
Theorem run_failure_keeps_prediction
    (classes : list string) (engine : ort.Engine) (t : ort.Tensor) (e : ort.error)
    (st : Part001.state) :
  engine_fails engine t e →
  Part001.predictedClass (Part001.run classes engine t st).2 =
    Part001.predictedClass st ∧
  Part001.target_innerHTML
    (Part001.on_interval (Part001.run classes engine t st).2) =
    if bool_decide (Part001.predictedClass st ≠ Some "undefined")
    then result_line (JS.template (Part001.predictedClass st))
    else "".
Proof.
  intros Hfail. rewrite (run_fails classes engine t e st Hfail).
  split; [reflexivity|]. unfold Part001.on_interval.
  cbn [snd Part001.isRunning Part001.set_isRunning Part001.predictedClass
       Part001.console_error].
  by destruct (bool_decide _).
Qed.

Lemma run_failure_keeps_prediction_witness :
  let t := ort.mkTensor "float32" [] DIMS in
  let st := Part001.onchange true
              (Part001.set_predictedClass (Some "tench") (Part001.initial "")) in
  Part001.predictedClass (Part001.run [] engine_without_model t st).2 =
    Part001.predictedClass st ∧
  Part001.target_innerHTML
    (Part001.on_interval (Part001.run [] engine_without_model t st).2) =
    if bool_decide (Part001.predictedClass st ≠ Some "undefined")
    then result_line (JS.template (Part001.predictedClass st))
    else "".
Proof.
  intros t st.
  apply (run_failure_keeps_prediction [] engine_without_model t
           (ort.EngineError "failed to load model") st).
  apply engine_without_model_fails.
Defined.

(** X16. Two requests in flight at once: when the request started first
    completes last, its label replaces the label of the newer request, and
    the busy flag has dropped at the first completion although a request
    was still pending. *)
Theorem overlapping_requests
    (classes : list string)
    (engineA engineB : ort.Engine) (tA tB : ort.Tensor)
    (arrA arrB : list JS.number) (st : Part001.state) :
  engine_outputs engineA tA arrA →
  engine_outputs engineB tB arrB →
  let started := Part001.onchange true (Part001.onchange true st) in
  let afterB := (Part001.run classes engineB tB started).2 in
  let afterA := (Part001.run classes engineA tA afterB).2 in
  Part001.isRunning started = true ∧
  Part001.isRunning afterB = false ∧
  Part001.predictedClass afterB = Some (label classes arrB) ∧
  Part001.predictedClass afterA = Some (label classes arrA).
Proof.
  intros HA HB started afterB afterA. subst afterA afterB.
  rewrite (run_outputs classes engineB tB arrB started HB).
  rewrite (run_outputs classes engineA tA arrA _ HA).
  done.
Qed.

Lemma overlapping_requests_witness :
  let classes := ["tench"; "goldfish"; "great white shark"] in
  let arrA := [tenths 9; tenths 1] in
  let arrB := [tenths 1; tenths 9] in
  let tA := ort.mkTensor "float32" [] DIMS in
  let tB := ort.mkTensor "float32" [JS.of_Z 1] DIMS in
  let started := Part001.onchange true (Part001.onchange true (Part001.initial "")) in
  let afterB := (Part001.run classes (engine_returning arrB) tB started).2 in
  let afterA := (Part001.run classes (engine_returning arrA) tA afterB).2 in
  Part001.isRunning started = true ∧
  Part001.isRunning afterB = false ∧
  Part001.predictedClass afterB = Some (label classes arrB) ∧
  Part001.predictedClass afterA = Some (label classes arrA).
Proof.
  intros classes arrA arrB tA tB.
  apply (overlapping_requests classes (engine_returning arrA) (engine_returning arrB)
           tA tB arrA arrB (Part001.initial "")).
  - apply engine_returning_outputs.
  - apply engine_returning_outputs.
Defined.

(** X17. The tick only ever writes the target element, and a second tick
    with nothing in between changes nothing more. *)
Theorem on_interval_stable (st : Part001.state) :
  Part001.on_interval (Part001.on_interval st) = Part001.on_interval st ∧
  Part001.predictedClass (Part001.on_interval st) = Part001.predictedClass st ∧
  Part001.isRunning (Part001.on_interval st) = Part001.isRunning st ∧
  Part001.console (Part001.on_interval st) = Part001.console st.
Proof.
  unfold Part001.on_interval.
  destruct (Part001.isRunning st) eqn:Hrun.
  - cbn [Part001.isRunning Part001.set_target_innerHTML]. by rewrite Hrun.
  - destruct (bool_decide (Part001.predictedClass st ≠ Some "undefined")) eqn:Hp;
      cbn [Part001.isRunning Part001.predictedClass Part001.set_target_innerHTML];
      by rewrite Hrun, Hp.
Qed.
